(** * Governors of the gov module: power index, eligibility, bonded tokens

    A shallow embedding of [x/gov/keeper/governor.go] and of the tally
    result helpers of [x/gov/types/v1], together with the parts of
    [cosmossdk.io/math] and of [math/big] that the keeper code calls.

    Go panics are modelled by the [result] type; the key-value store is
    modelled by one finite map per key prefix. *)

From Stdlib Require Import ZArith String Ascii DecimalString Lia Bool.
From Stdlib Require DecimalPos DecimalZ.
From stdpp Require Import base decidable option list sorting gmap strings.

Local Open Scope Z_scope.

(** ** Panics *)

Inductive panic : Type :=
  | NilDereference                (* runtime error: nil pointer dereference *)
  | DivisionByZero                (* big.Int.Quo with a zero divisor *)
  | IntOverflow                   (* panic("Int overflow") *)
  | OutOfBound                    (* panic("NewIntFromBigInt() out of bound") *)
  | InvalidBech32                 (* a Must...FromBech32 on a malformed text *)
  | PanicMsg (msg : string).      (* panic(msg) of the keeper itself *)

Inductive result (A : Type) : Type :=
  | Ok (a : A)
  | Panic (p : panic).
Arguments Ok {A} a.
Arguments Panic {A} p.

#[global] Instance result_ret : MRet result := fun A a => Ok a.
#[global] Instance result_bind : MBind result := fun A B f m =>
  match m with
  | Ok a => f a
  | Panic p => Panic p
  end.

Definition is_Ok {A} (r : result A) : bool :=
  match r with Ok _ => true | Panic _ => false end.

(** ** Arbitrary precision numbers ([math/big], [cosmossdk.io/math]) *)

Module math.

(** A [*big.Int]; [None] is the nil pointer held by a zero value
    [Int{}] or [Dec{}]. *)
Record Int : Type := mkInt { Int_i : option Z }.
(** [sdk.Dec]: the integer [Dec_i] stands for [Dec_i / 10^18]. *)
Record Dec : Type := mkDec { Dec_i : option Z }.

Definition Precision : Z := 18.
Definition precisionReuse : Z := 10 ^ Precision.
Definition fivePrecision : Z := Z.quot precisionReuse 2.
Definition MaxBitLen : Z := 256.
Definition DecimalPrecisionBits : Z := 60.
Definition decimalTruncateBits : Z := DecimalPrecisionBits - 1.
Definition maxDecBitLen : Z := MaxBitLen + decimalTruncateBits.

(** [big.Int.BitLen]: length of the absolute value in bits, 0 for 0. *)
Definition BitLen (z : Z) : Z :=
  if z =? 0 then 0 else Z.log2 (Z.abs z) + 1.

Definition deref (p : option Z) : result Z :=
  match p with
  | Some z => Ok z
  | None => Panic NilDereference
  end.

(** [big.Int.Quo]: truncated division, a run-time panic on zero. *)
Definition big_Quo (x y : Z) : result Z :=
  if y =? 0 then Panic DivisionByZero else Ok (Z.quot x y).

Definition ZeroInt : Int := mkInt (Some 0).
Definition NewInt (z : Z) : Int := mkInt (Some z).
Definition NewDec (z : Z) : Dec := mkDec (Some (z * precisionReuse)).

Definition NewIntFromBigInt (z : Z) : result Int :=
  if BitLen z >? MaxBitLen then Panic OutOfBound else Ok (mkInt (Some z)).

Definition Int_Add (i i2 : Int) : result Int :=
  x ← deref (Int_i i);
  y ← deref (Int_i i2);
  let r := x + y in
  if BitLen r >? MaxBitLen then Panic IntOverflow else Ok (mkInt (Some r)).

(** [i.LT(i2)] is [i.i.Cmp(i2.i) == -1]; [Cmp] returns 0 on identical
    pointers before it reads either operand. *)
Definition Int_LT (i i2 : Int) : result bool :=
  match Int_i i, Int_i i2 with
  | None, None => Ok false
  | Some x, Some y => Ok (x <? y)
  | _, _ => Panic NilDereference
  end.

(** [i.String()]: decimal text; [big.Int.String] prints a nil receiver
    as [<nil>]. *)
Definition Int_String (i : Int) : string :=
  match Int_i i with
  | None => "<nil>"
  | Some z => NilZero.string_of_int (Z.to_int z)
  end.

Definition chopPrecisionAndRoundNonNeg (d : Z) : Z :=
  let quo := Z.quot d precisionReuse in
  let rem := Z.rem d precisionReuse in
  if rem =? 0 then quo
  else match rem ?= fivePrecision with
       | Lt => quo
       | Gt => quo + 1
       | Eq => if Z.even quo then quo else quo + 1
       end.

(** Removes the 18 extra digits, rounding half to even. *)
Definition chopPrecisionAndRound (d : Z) : Z :=
  if d <? 0 then - chopPrecisionAndRoundNonNeg (- d)
  else chopPrecisionAndRoundNonNeg d.

Definition chopPrecisionAndTruncate (d : Z) : Z := Z.quot d precisionReuse.

Definition Dec_MulInt (d : Dec) (i : Int) : result Dec :=
  x ← deref (Dec_i d);
  y ← deref (Int_i i);
  let r := x * y in
  if BitLen r >? maxDecBitLen then Panic IntOverflow else Ok (mkDec (Some r)).

Definition Dec_Quo (d d2 : Dec) : result Dec :=
  x ← deref (Dec_i d);
  y ← deref (Dec_i d2);
  q ← big_Quo (x * precisionReuse * precisionReuse) y;
  let r := chopPrecisionAndRound q in
  if BitLen r >? maxDecBitLen then Panic IntOverflow else Ok (mkDec (Some r)).

Definition Dec_TruncateInt (d : Dec) : result Int :=
  x ← deref (Dec_i d);
  NewIntFromBigInt (chopPrecisionAndTruncate x).

(** *** [big.Int.SetString(s, 0)] *)

Definition MaxBase : Z := 62.

Definition digitVal (b : Z) (ch : ascii) : Z :=
  let c := Z.of_N (N_of_ascii ch) in
  if (48 <=? c) && (c <=? 57) then c - 48
  else if (97 <=? c) && (c <=? 122) then c - 97 + 10
  else if (65 <=? c) && (c <=? 90) then
    (if b <=? 36 then c - 65 + 10 else c - 65 + 36)
  else MaxBase + 1.

(** The previously seen character of [nat.scan]: a separator, a digit,
    or anything else. *)
Inductive prevChar : Type := PrevSep | PrevDigit | PrevOther.

Definition is_PrevDigit (p : prevChar) : bool :=
  match p with PrevDigit => true | _ => false end.
Definition is_PrevSep (p : prevChar) : bool :=
  match p with PrevSep => true | _ => false end.

Record scanState : Type := mkScan {
  sc_value : Z;
  sc_count : Z;
  sc_invalSep : bool;
  sc_prev : prevChar;
  sc_rest : string
}.

(** The digit loop of [nat.scan] for base 0 input (separators allowed);
    it stops in front of the first character that is not a digit of
    base [b]. *)
Fixpoint scanDigits (b : Z) (s : string) (prev : prevChar)
    (invalSep : bool) (count value : Z) : scanState :=
  match s with
  | EmptyString => mkScan value count invalSep prev EmptyString
  | String ch rest =>
      if Ascii.eqb ch "_" then
        scanDigits b rest PrevSep (invalSep || negb (is_PrevDigit prev))
                   count value
      else
        let d1 := digitVal b ch in
        if d1 >=? b then mkScan value count invalSep prev s
        else scanDigits b rest PrevDigit invalSep (count + 1)
                        (value * b + d1)
  end.

(** [nat.scan(r, 0, false)]: base prefix, digits; [None] is an error.
    The second component is the unread input. *)
Definition natScan (s : string) : option (Z * string) :=
  let finish (octalPrefix : bool) (st : scanState) :=
    let err := sc_invalSep st || is_PrevSep (sc_prev st) in
    if sc_count st =? 0 then
      if octalPrefix then
        (if err then None else Some (0, sc_rest st))
      else None
    else if err then None else Some (sc_value st, sc_rest st) in
  match s with
  | String "0" EmptyString => Some (0, EmptyString)
  | String "0" (String ch rest as tl) =>
      if Ascii.eqb ch "b" || Ascii.eqb ch "B" then
        finish false (scanDigits 2 rest PrevDigit false 0 0)
      else if Ascii.eqb ch "o" || Ascii.eqb ch "O" then
        finish false (scanDigits 8 rest PrevDigit false 0 0)
      else if Ascii.eqb ch "x" || Ascii.eqb ch "X" then
        finish false (scanDigits 16 rest PrevDigit false 0 0)
      else finish true (scanDigits 8 tl PrevDigit false 0 0)
  | _ => finish false (scanDigits 10 s PrevOther false 0 0)
  end.

(** [new(big.Int).SetString(s, 0)]: sign, number, nothing left over. *)
Definition big_SetString (s : string) : option Z :=
  match s with
  | EmptyString => None
  | String ch rest =>
      let neg := Ascii.eqb ch "-" in
      let body := if neg || Ascii.eqb ch "+" then rest else s in
      match natScan body with
      | Some (v, EmptyString) => Some (if neg then - v else v)
      | _ => None
      end
  end.

(** [math.NewIntFromString]: the zero value [Int{}] and [false] when the
    text does not scan or needs more than 256 bits. *)
Definition NewIntFromString (s : string) : Int * bool :=
  match big_SetString s with
  | None => (mkInt None, false)
  | Some z => if BitLen z >? MaxBitLen then (mkInt None, false)
              else (mkInt (Some z), true)
  end.

(** The number a run of decimal digits denotes when read after a number
    [acc], as the digit loop accumulates it. *)
Fixpoint uintValue (d : Decimal.uint) (acc : Z) : Z :=
  match d with
  | Decimal.Nil => acc
  | Decimal.D0 d => uintValue d (acc * 10 + 0)
  | Decimal.D1 d => uintValue d (acc * 10 + 1)
  | Decimal.D2 d => uintValue d (acc * 10 + 2)
  | Decimal.D3 d => uintValue d (acc * 10 + 3)
  | Decimal.D4 d => uintValue d (acc * 10 + 4)
  | Decimal.D5 d => uintValue d (acc * 10 + 5)
  | Decimal.D6 d => uintValue d (acc * 10 + 6)
  | Decimal.D7 d => uintValue d (acc * 10 + 7)
  | Decimal.D8 d => uintValue d (acc * 10 + 8)
  | Decimal.D9 d => uintValue d (acc * 10 + 9)
  end.

End math.

(** ** Types of [x/gov/types] and [x/gov/types/v1] *)

Module v1.

(** A [types.GovernorAddress] (and the [sdk.AccAddress] cast of it):
    the bytes of the address. *)
Abbreviation GovernorAddress := string.

Inductive GovernorStatus : Type := Unspecified | Active | Inactive.

#[global] Instance GovernorStatus_eq_dec : EqDecision GovernorStatus.
Proof. solve_decision. Defined.

(** Modelled from the spec: the declaration of the Governor struct and
    its getters are not among the sources. The spec gives a governor an
    address, a lifecycle status, a description and a voting power (a
    decimal, kept here as the integer of its 18 digit representation);
    the zero value has the unspecified status. *)
Record Governor : Type := mkGovernor {
  GetAddress : GovernorAddress;
  GetStatus : GovernorStatus;
  GetDescription : string;
  GetVotingPower : Z
}.

Definition zeroGovernor : Governor := mkGovernor "" Unspecified "" 0.

Definition IsActive (g : Governor) : bool := bool_decide (GetStatus g = Active).
Definition IsInactive (g : Governor) : bool := bool_decide (GetStatus g = Inactive).

(** Modelled from the spec: the governance delegation of a delegator
    names one governor. The record keeps the governor as bech32 text;
    the text is represented by what it decodes to, [None] for a text
    that is no governor address. *)
Record GovernanceDelegation : Type := mkGovernanceDelegation {
  DelegatorAddress : string;
  DelegationGovernorAddress : option GovernorAddress
}.

Definition MustGovernorAddressFromBech32 (text : option GovernorAddress)
  : result GovernorAddress :=
  match text with
  | Some addr => Ok addr
  | None => Panic InvalidBech32
  end.

(** Configuration read by the keeper; [MaxGovernors] is an unsigned
    integer. *)
Record Params : Type := mkParams {
  MaxGovernors : N;
  MinGovernorSelfDelegation : string
}.

(** Modelled from the spec: the declaration of the TallyResult struct is
    not among the sources; the spec gives it four counts (yes, abstain,
    no, no-with-veto), kept as decimal text. A composite literal leaves
    the fields it does not name at the zero value, the empty text. *)
Record TallyResult : Type := mkTallyResult {
  YesCount : string;
  AbstainCount : string;
  NoCount : string;
  NoWithVetoCount : string
}.

(** [NewTallyResult]: a literal that names three fields. *)
Definition NewTallyResult (yes abstain no : math.Int) : TallyResult :=
  {| YesCount := math.Int_String yes;
     AbstainCount := math.Int_String abstain;
     NoCount := math.Int_String no;
     NoWithVetoCount := "" |}.

Definition EmptyTallyResult : TallyResult :=
  NewTallyResult math.ZeroInt math.ZeroInt math.ZeroInt.

(** [Equals]: Go compares the three texts with [==]. *)
Definition Equals (tr comp : TallyResult) : bool :=
  String.eqb (YesCount tr) (YesCount comp) &&
  String.eqb (AbstainCount tr) (AbstainCount comp) &&
  String.eqb (NoCount tr) (NoCount comp).

(** *** Helpers of the tally ([NewGovernorGovInfo], [NewTallyResultFromMap]) *)

(** Modelled from the spec: the vote options are declared in generated
    code that is not among the sources; the zero value is the
    unspecified option. *)
Inductive VoteOption : Type :=
  | OptionUnspecified | OptionYes | OptionAbstain | OptionNo | OptionNoWithVeto.

#[global] Instance VoteOption_eq_dec : EqDecision VoteOption.
Proof. solve_decision. Defined.

#[global] Instance VoteOption_countable : Countable VoteOption.
Proof.
  refine (inj_countable'
            (λ o, match o with
                  | OptionUnspecified => 0%nat | OptionYes => 1%nat
                  | OptionAbstain => 2%nat | OptionNo => 3%nat
                  | OptionNoWithVeto => 4%nat
                  end)
            (λ n, match n with
                  | 0%nat => OptionUnspecified | 1%nat => OptionYes
                  | 2%nat => OptionAbstain | 3%nat => OptionNo
                  | _ => OptionNoWithVeto
                  end) _).
  by intros [].
Defined.

(** A weighted vote: options with their weights. *)
Abbreviation WeightedVoteOptions := (list (VoteOption * math.Dec)).

(** Modelled from the spec: the shares a governor holds with one
    validator; the struct is declared in generated code. *)
Record GovernorValShares : Type := mkGovernorValShares {
  ValSharesGovernorAddress : string;
  ValidatorAddress : string;
  Shares : math.Dec
}.

(** [GovernorGovInfo] (lines 12 to 18 of the tally types). *)
Record GovernorGovInfo : Type := mkGovernorGovInfo {
  Address : GovernorAddress;
  ValShares : gmap string math.Dec;
  ValSharesDeductions : gmap string math.Dec;
  Vote : WeightedVoteOptions;
  VotingPower : math.Dec
}.

(** The loop that fills [valSharesMap]: an assignment per element, in
    the order of the slice. *)
Definition valSharesMapOf (valShares : list GovernorValShares) : gmap string math.Dec :=
  foldl (λ m valShare, <[ValidatorAddress valShare := Shares valShare]> m) ∅ valShares.

(** [NewGovernorGovInfo] (lines 21 to 34). *)
Definition NewGovernorGovInfo (address : GovernorAddress)
    (valShares : list GovernorValShares) (options : WeightedVoteOptions)
    (votingPower : math.Dec) : GovernorGovInfo :=
  {| Address := address;
     ValShares := valSharesMapOf valShares;
     ValSharesDeductions := ∅;
     Vote := options;
     VotingPower := votingPower |}.

(** [results[option]] on a Go map: the zero value [Dec{}] for a key that
    is not there. *)
Definition mapIndex (results : gmap VoteOption math.Dec) (option : VoteOption) : math.Dec :=
  default (math.mkDec None) (results !! option).

(** [NewTallyResultFromMap] (lines 46 to 52); the arguments are evaluated
    from left to right. *)
Definition NewTallyResultFromMap (results : gmap VoteOption math.Dec) : result TallyResult :=
  yes ← math.Dec_TruncateInt (mapIndex results OptionYes);
  abstain ← math.Dec_TruncateInt (mapIndex results OptionAbstain);
  no ← math.Dec_TruncateInt (mapIndex results OptionNo);
  Ok (NewTallyResult yes abstain no).

End v1.

(** ** The staking keeper as the gov keeper sees it *)

Module stakingtypes.

(** [DelegationI]: [GetValidatorAddr] and [GetShares]. *)
Record Delegation : Type := mkDelegation {
  GetValidatorAddr : string;
  GetShares : math.Dec
}.

(** [ValidatorI]: [GetBondedTokens] and [GetDelegatorShares]. *)
Record Validator : Type := mkValidator {
  GetBondedTokens : math.Int;
  GetDelegatorShares : math.Dec
}.

(** The zero value returned with [found = false]: an unbonded validator
    has no bonded tokens, and its delegator shares hold a nil pointer. *)
Definition zeroValidator : Validator :=
  mkValidator math.ZeroInt (math.mkDec None).

End stakingtypes.

(** ** The keeper *)

Module keeper.
Import v1 stakingtypes.

(** Modelled from the spec: [types.GovernorsByPowerKey] is not among the
    sources. The power index is keyed by (voting power, address), ordered
    by power first and by address among equal powers. *)
Abbreviation PowerKey := (Z * GovernorAddress)%type.

Definition GovernorsByPowerKey (addr : GovernorAddress) (power : Z) : PowerKey :=
  (power, addr).

(** What the keeper reads and writes: the governors, the power index and
    the governance delegations of its own store, its parameters, and
    the delegations and validators of the staking keeper [k.sk]. *)
Record Keeper : Type := mkKeeper {
  governors : gmap GovernorAddress Governor;
  governorsByPower : gmap PowerKey GovernorAddress;
  governanceDelegations : gmap string GovernanceDelegation;
  params : Params;
  sk_delegations : gmap string (list Delegation);
  sk_validators : gmap string Validator
}.

Definition with_governors (f : gmap GovernorAddress Governor → gmap GovernorAddress Governor)
    (k : Keeper) : Keeper :=
  mkKeeper (f (governors k)) (governorsByPower k) (governanceDelegations k)
           (params k) (sk_delegations k) (sk_validators k).

Definition with_governorsByPower (f : gmap PowerKey GovernorAddress → gmap PowerKey GovernorAddress)
    (k : Keeper) : Keeper :=
  mkKeeper (governors k) (f (governorsByPower k)) (governanceDelegations k)
           (params k) (sk_delegations k) (sk_validators k).

Definition GetParams (k : Keeper) : Params := params k.

(** [GetGovernor] (governor.go, lines 14 to 22): the zero value and
    [false] when the store has no record under the address. *)
Definition GetGovernor (k : Keeper) (addr : GovernorAddress) : Governor * bool :=
  match governors k !! addr with
  | None => (zeroGovernor, false)
  | Some g => (g, true)
  end.

(** [SetGovernor] (lines 25 to 29). *)
Definition SetGovernor (k : Keeper) (governor : Governor) : Keeper :=
  with_governors (insert (GetAddress governor) governor) k.

(** [SetGovernorByPowerIndex] (lines 80 to 83): the value stored under
    the key is the address. *)
Definition SetGovernorByPowerIndex (k : Keeper) (governor : Governor) : Keeper :=
  with_governorsByPower
    (insert (GovernorsByPowerKey (GetAddress governor) (GetVotingPower governor))
            (GetAddress governor)) k.

(** [DeleteGovernorByPowerIndex] (lines 86 to 89). *)
Definition DeleteGovernorByPowerIndex (k : Keeper) (governor : Governor) : Keeper :=
  with_governorsByPower
    (delete (GovernorsByPowerKey (GetAddress governor) (GetVotingPower governor))) k.

(** [UpdateGovernorByPowerIndex] (lines 92 to 97). *)
Definition UpdateGovernorByPowerIndex (k : Keeper) (governor : Governor) : Keeper :=
  let oldGovernor := (GetGovernor k (GetAddress governor)).1 in
  let k := DeleteGovernorByPowerIndex k oldGovernor in
  let k := SetGovernorByPowerIndex k governor in
  SetGovernor k governor.

(** Modelled from the spec: [GetGovernanceDelegation] is not among the
    sources; the delegation of a delegator account, or its absence. *)
Definition GetGovernanceDelegation (k : Keeper) (delAddr : string)
  : GovernanceDelegation * bool :=
  match governanceDelegations k !! delAddr with
  | None => (mkGovernanceDelegation "" None, false)
  | Some d => (d, true)
  end.

(** [k.sk.GetValidator]. *)
Definition GetValidator (k : Keeper) (valAddr : string) : Validator * bool :=
  match sk_validators k !! valAddr with
  | None => (zeroValidator, false)
  | Some v => (v, true)
  end.

(** The delegations [k.sk.IterateDelegations] visits for an account. *)
Definition delegationsOf (k : Keeper) (addr : string) : list Delegation :=
  default [] (sk_delegations k !! addr).

(** The body of the callback of [getGovernorBondedTokens] up to the
    truncation: the tokens behind one delegation. *)
Definition delegationTokens (k : Keeper) (delegation : Delegation) : result math.Int :=
  let validatorAddr := GetValidatorAddr delegation in
  let validator := (GetValidator k validatorAddr).1 in
  let shares := GetShares delegation in
  m ← math.Dec_MulInt shares (GetBondedTokens validator);
  q ← math.Dec_Quo m (GetDelegatorShares validator);
  math.Dec_TruncateInt q.

(** The callback never asks to stop, so every delegation is visited. *)
Fixpoint bondedTokensLoop (k : Keeper) (ds : list Delegation)
    (bondedTokens : math.Int) : result math.Int :=
  match ds with
  | [] => Ok bondedTokens
  | delegation :: ds' =>
      bt ← delegationTokens k delegation;
      bondedTokens ← math.Int_Add bondedTokens bt;
      bondedTokensLoop k ds' bondedTokens
  end.

(** [getGovernorBondedTokens] (lines 122 to 136). *)
Definition getGovernorBondedTokens (k : Keeper) (govAddr : GovernorAddress)
  : result math.Int :=
  let bondedTokens := math.ZeroInt in
  let addr := govAddr in
  bondedTokensLoop k (delegationsOf k addr) bondedTokens.

Definition noSelfDelegation : panic :=
  PanicMsg "active governor without governance self-delegation".

(** [ValidateGovernorMinSelfDelegation] (lines 138 to 156). The minimum
    is parsed and the bonded tokens are computed before anything is
    tested; the second result of the parser is dropped. *)
Definition ValidateGovernorMinSelfDelegation (k : Keeper) (governor : Governor)
  : result bool :=
  let minGovernorSelfDelegation :=
    (math.NewIntFromString (MinGovernorSelfDelegation (GetParams k))).1 in
  bondedTokens ← getGovernorBondedTokens k (GetAddress governor);
  let delAddr := GetAddress governor in
  if negb (IsActive governor) then Ok false
  else
    let '(del, found) := GetGovernanceDelegation k delAddr in
    mismatch ← (if negb found then Ok true
                else a ← MustGovernorAddressFromBech32 (DelegationGovernorAddress del);
                     Ok (negb (String.eqb (GetAddress governor) a)));
    if (mismatch : bool) then Panic noSelfDelegation
    else
      lt ← math.Int_LT bondedTokens minGovernorSelfDelegation;
      if (lt : bool) then Ok false else Ok true.

(** *** Iteration over the power index *)

(** Order of the keys of the power index. *)
Definition PowerKey_leb (a b : PowerKey) : bool :=
  (a.1 <? b.1) || ((a.1 =? b.1) && String.leb a.2 b.2).

(** An entry comes before another in a reverse iteration when its key
    is the larger one. *)
Definition before_in_reverse (e1 e2 : PowerKey * GovernorAddress) : Prop :=
  PowerKey_leb e2.1 e1.1 = true.

#[global] Instance before_in_reverse_dec e1 e2 : Decision (before_in_reverse e1 e2).
Proof. unfold before_in_reverse. apply _. Defined.

(** [sdk.KVStoreReversePrefixIterator(store, GovernorsByPowerKeyPrefix)]:
    the entries of the power index from the largest key down. *)
Definition reversePowerIterator (k : Keeper) : list (PowerKey * GovernorAddress) :=
  merge_sort before_in_reverse (map_to_list (governorsByPower k)).

Definition uint64 (z : Z) : Z := z mod 2 ^ 64.
Definition int64 (z : Z) : Z :=
  let u := z mod 2 ^ 64 in if u <? 2 ^ 63 then u else u - 2 ^ 64.

(** What an iteration did: the calls of the callback in order, the state
    the callback is left in, and the panic that ended the iteration, if
    one did. *)
Record run (S : Type) : Type := mkRun {
  calls : list (Z * Governor);
  cb_state : S;
  aborted : option panic
}.
Arguments mkRun {S} calls cb_state aborted.
Arguments calls {S} r.
Arguments cb_state {S} r.
Arguments aborted {S} r.

Definition after_call {S} (call : Z * Governor) (r : run S) : run S :=
  mkRun (call :: calls r) (cb_state r) (aborted r).

(** The loop of [IterateMaxGovernorsByGovernancePower] from a position
    of the iterator on. The callback is a function of its own state; it
    does not write to the store. *)
Fixpoint iterateLoop {S} (k : Keeper) (maxGovernors : Z)
    (cb : S → Z → Governor → S * bool)
    (iterator : list (PowerKey * GovernorAddress))
    (totGovernors : Z) (s : S) : run S :=
  match iterator with
  | [] => mkRun [] s None
  | entry :: next =>
      if totGovernors <=? maxGovernors then
        let governorAddr := entry.2 in
        let governor := (GetGovernor k governorAddr).1 in
        if IsActive governor then
          match ValidateGovernorMinSelfDelegation k governor with
          | Panic p => mkRun [] s (Some p)
          | Ok false => iterateLoop k maxGovernors cb next totGovernors s
          | Ok true =>
              let '(s', stop) := cb s (int64 totGovernors) governor in
              if (stop : bool) then mkRun [(int64 totGovernors, governor)] s' None
              else after_call (int64 totGovernors, governor)
                     (iterateLoop k maxGovernors cb next
                        (uint64 (totGovernors + 1)) s')
          end
        else iterateLoop k maxGovernors cb next totGovernors s
      else mkRun [] s None
  end.

(** [IterateMaxGovernorsByGovernancePower] (lines 101 to 120). *)
Definition IterateMaxGovernorsByGovernancePower {S} (k : Keeper)
    (cb : S → Z → Governor → S * bool) (s : S) : run S :=
  let maxGovernors := Z.of_N (MaxGovernors (GetParams k)) in
  let totGovernors := 0 in
  iterateLoop k maxGovernors cb (reversePowerIterator k) totGovernors s.

(** *** Notions used to state properties of the iteration *)

(** The governor an index entry resolves to: [governor, _ :=
    k.GetGovernor(ctx, governorAddr)]. *)
Definition resolve (k : Keeper) (entry : PowerKey * GovernorAddress) : Governor :=
  (GetGovernor k entry.2).1.

(** The condition of the [if] in the loop, with its short circuit. *)
Definition entryVerdict (k : Keeper) (entry : PowerKey * GovernorAddress)
  : result bool :=
  let governor := resolve k entry in
  if IsActive governor then ValidateGovernorMinSelfDelegation k governor
  else Ok false.

Definition admitted (k : Keeper) (entry : PowerKey * GovernorAddress) : bool :=
  match entryVerdict k entry with
  | Ok true => true
  | _ => false
  end.

(** The entries of the power index whose key carries the address. *)
Definition entriesOf (addr : GovernorAddress) (k : Keeper)
  : gmap PowerKey GovernorAddress :=
  filter (λ e, e.1.2 = addr) (governorsByPower k).

(** The value of [shares.MulInt(bonded).Quo(total).TruncateInt()] on the
    integers behind the three operands, when no step panics. *)
Definition tokensOfShares (shares bonded total : Z) : Z :=
  math.chopPrecisionAndTruncate
    (math.chopPrecisionAndRound
       (Z.quot (shares * bonded * math.precisionReuse * math.precisionReuse) total)).

(** The three integers behind one delegation: its shares, and the bonded
    tokens and the delegator shares of its validator; [None] when the
    validator is unknown or an operand holds a nil pointer. *)
Definition termOperands (k : Keeper) (d : Delegation) : option (Z * Z * Z) :=
  shares ← math.Dec_i (GetShares d);
  v ← sk_validators k !! GetValidatorAddr d;
  bonded ← math.Int_i (GetBondedTokens v);
  total ← math.Dec_i (GetDelegatorShares v);
  Some (shares, bonded, total).

(** The conditions under which no step of a term panics: the operands are
    there, the divisor is not zero, and the product and the quotient fit
    a decimal. *)
Definition termDefined (k : Keeper) (d : Delegation) : bool :=
  match termOperands k d with
  | Some (shares, bonded, total) =>
      negb (total =? 0) &&
      (math.BitLen (shares * bonded) <=? math.maxDecBitLen) &&
      (math.BitLen
         (math.chopPrecisionAndRound
            (Z.quot (shares * bonded * math.precisionReuse * math.precisionReuse) total))
       <=? math.maxDecBitLen)
  | None => false
  end.

(** The tokens the code attributes to one delegation. *)
Definition codeTokens (k : Keeper) (d : Delegation) : Z :=
  match termOperands k d with
  | Some (shares, bonded, total) => tokensOfShares shares bonded total
  | None => 0
  end.

(** No running total leaves the range of [math.Int]. *)
Fixpoint partialSumsFit (acc : Z) (terms : list Z) : bool :=
  match terms with
  | [] => true
  | t :: terms' =>
      (math.BitLen (acc + t) <=? math.MaxBitLen) && partialSumsFit (acc + t) terms'
  end.

(** *** The governors in store order *)

(** Modelled from the spec: [types.GovernorKey] is not among the sources;
    the governors are keyed by their address and a prefix iterator
    visits them in the order of the keys. *)
Definition governor_before (e1 e2 : GovernorAddress * Governor) : Prop :=
  String.leb e1.1 e2.1 = true.

#[global] Instance governor_before_dec e1 e2 : Decision (governor_before e1 e2).
Proof. unfold governor_before. apply _. Defined.

(** [sdk.KVStorePrefixIterator(store, types.GovernorKeyPrefix)]: the
    stored governors, each unmarshalled from its value. *)
Definition governorIterator (k : Keeper) : list Governor :=
  (merge_sort governor_before (map_to_list (governors k))).*2.

(** [GetAllGovernors] (lines 32 to 44). *)
Definition GetAllGovernors (k : Keeper) : list Governor :=
  foldl (λ governors governor, governors ++ [governor]) [] (governorIterator k).

(** [GetAllActiveGovernors] (lines 47 to 61). *)
Definition GetAllActiveGovernors (k : Keeper) : list Governor :=
  foldl (λ governors governor,
           if IsActive governor then governors ++ [governor] else governors)
        [] (governorIterator k).

(** The loop of [IterateGovernors]: the index is an int64 that grows by
    one after every call that does not ask to stop. *)
Fixpoint iterateGovernorsLoop {S} (cb : S → Z → Governor → S * bool)
    (iterator : list Governor) (i : Z) (s : S) : run S :=
  match iterator with
  | [] => mkRun [] s None
  | governor :: next =>
      let '(s', stop) := cb s i governor in
      if (stop : bool) then mkRun [(i, governor)] s' None
      else after_call (i, governor) (iterateGovernorsLoop cb next (int64 (i + 1)) s')
  end.

(** [IterateGovernors] (lines 64 to 77). *)
Definition IterateGovernors {S} (k : Keeper)
    (cb : S → Z → Governor → S * bool) (s : S) : run S :=
  iterateGovernorsLoop cb (governorIterator k) (int64 0) s.

(** *** Consistency of the power index with the governors *)

(** Every entry of the power index is the entry of a stored governor: its
    value is the address in its key, and the governor stored under this
    address has this address and the voting power in the key. *)
Definition indexSound (k : Keeper) : Prop :=
  ∀ key value, governorsByPower k !! key = Some value →
    value = key.2 ∧
    ∃ g, governors k !! value = Some g ∧ GetAddress g = value ∧
         GetVotingPower g = key.1.

End keeper.

(** ** Concrete stores used to exercise the keeper *)

Module scenario.
Import v1 stakingtypes keeper.
Local Open Scope string_scope.

Definition selfDelegation (addr : string) : GovernanceDelegation :=
  mkGovernanceDelegation addr (Some addr).

Definition govA : Governor := mkGovernor "A" Active "first" 300.
Definition govB : Governor := mkGovernor "B" Active "second" 200.
Definition govC : Governor := mkGovernor "C" Active "third" 100.
(** An active governor that never delegated to itself. *)
Definition govX : Governor := mkGovernor "X" Active "corrupt" 500.
Definition govI : Governor := mkGovernor "I" Inactive "retired" 50.

(** One validator with 2000 bonded tokens for 1000 shares; the governors
    A, B and C hold 1000, 100 and 50 of its shares. *)
Definition validators : gmap string Validator :=
  {[ "V" := mkValidator (math.NewInt 2000) (math.NewDec 1000) ]}.

Definition stakes : gmap string (list Delegation) :=
  list_to_map
    [ ("A", [mkDelegation "V" (math.NewDec 1000)]);
      ("B", [mkDelegation "V" (math.NewDec 100)]);
      ("C", [mkDelegation "V" (math.NewDec 50)]) ].

(** Three eligible governors and room for [maxGovernors]. *)
Definition threeGovernors (maxGovernors : N) (minSelf : string) : Keeper :=
  mkKeeper
    (list_to_map [("A", govA); ("B", govB); ("C", govC)])
    (list_to_map [((300, "A"), "A"); ((200, "B"), "B"); ((100, "C"), "C")])
    (list_to_map [("A", selfDelegation "A"); ("B", selfDelegation "B");
                  ("C", selfDelegation "C")])
    (mkParams maxGovernors minSelf)
    stakes validators.

(** The same store with the corrupt governor X ranked first. *)
Definition withCorruptGovernor (maxGovernors : N) : Keeper :=
  let k := threeGovernors maxGovernors "100" in
  SetGovernor (SetGovernorByPowerIndex k govX) govX.

(** The same store with an index entry whose governor record is gone. *)
Definition withDanglingEntry (maxGovernors : N) : Keeper :=
  let k := threeGovernors maxGovernors "100" in
  with_governorsByPower (insert (250, "gone") "gone") k.

(** Governor A stored with power 300 while its index entry is still
    keyed by an older power. *)
Definition withStaleEntry : Keeper :=
  mkKeeper {[ "A" := govA ]} {[ (120, "A") := "A" ]}
    {[ "A" := selfDelegation "A" ]} (mkParams 2 "100") stakes validators.

(** A validator without delegator shares, and an inactive governor whose
    account still holds a delegation to it. *)
Definition zeroShares : Keeper :=
  mkKeeper {[ "I" := govI ]} {[ (50, "I") := "I" ]} ∅ (mkParams 2 "100")
    {[ "I" := [mkDelegation "W" (math.NewDec 10)] ]}
    {[ "W" := mkValidator (math.NewInt 0) (math.NewDec 0) ]}.

(** A validator with one bonded token for two shares, and a governor
    holding all but the last 10^-18 of them. *)
Definition almostAll : Keeper :=
  mkKeeper {[ "A" := govA ]} {[ (300, "A") := "A" ]}
    {[ "A" := selfDelegation "A" ]} (mkParams 2 "1")
    {[ "A" := [mkDelegation "U" (math.mkDec (Some 1999999999999999999))] ]}
    {[ "U" := mkValidator (math.NewInt 1) (math.NewDec 2) ]}.

Definition entryA : PowerKey * GovernorAddress := ((300, "A"), "A").
Definition entryB : PowerKey * GovernorAddress := ((200, "B"), "B").
Definition entryC : PowerKey * GovernorAddress := ((100, "C"), "C").
Definition entryGone : PowerKey * GovernorAddress := ((250, "gone"), "gone").

(** An inactive governor alone, without any stake. *)
Definition retiredOnly (minSelf : string) : Keeper :=
  mkKeeper {[ "I" := govI ]} {[ (50, "I") := "I" ]} ∅ (mkParams 2 minSelf) ∅ ∅.

(** Callbacks: one that counts its calls and goes on, one that stops at
    its first call. *)
Definition countCalls (n : nat) (_ : Z) (_ : Governor) : nat * bool := (S n, false).
Definition stopAtOnce (n : nat) (_ : Z) (_ : Governor) : nat * bool := (S n, true).

(** A store in which no governor is registered yet; the accounts A, B and
    C already hold their stake and their governance self-delegation. *)
Definition noGovernors : Keeper :=
  mkKeeper ∅ ∅
    (list_to_map [("A", selfDelegation "A"); ("B", selfDelegation "B");
                  ("C", selfDelegation "C")])
    (mkParams 2 "100") stakes validators.

(** A callback that asks to stop when it is handed governor B. *)
Definition stopAtB (n : nat) (_ : Z) (g : Governor) : nat * bool :=
  (S n, String.eqb (GetAddress g) "B").

(** An account with a delegation to a validator the staking keeper does
    not know. *)
Definition unknownValidator : Keeper :=
  mkKeeper {[ "I" := govI ]} {[ (50, "I") := "I" ]} ∅ (mkParams 2 "100")
    {[ "I" := [mkDelegation "nobody" (math.NewDec 10)] ]} validators.

(** Governor X delegating to itself, without any stake; the minimum is
    [minSelf]. *)
Definition unstaked (minSelf : string) : Keeper :=
  mkKeeper {[ "X" := govX ]} {[ (500, "X") := "X" ]}
    {[ "X" := selfDelegation "X" ]} (mkParams 2 minSelf) stakes validators.

End scenario.

(** ** What the specification says, in its own words *)

Module spec.
Import v1 stakingtypes keeper.

(** [floor(shares × bondedTokens / totalDelegatorShares)] for one
    delegation, on the exact quotient; an absent or nil operand counts
    as zero. *)
Definition exactTokens (k : Keeper) (d : Delegation) : Z :=
  let v := (GetValidator k (GetValidatorAddr d)).1 in
  let shares := default 0 (math.Dec_i (GetShares d)) in
  let bonded := default 0 (math.Int_i (GetBondedTokens v)) in
  let total := default 0 (math.Dec_i (GetDelegatorShares v)) in
  Z.quot (shares * bonded) total.

(** The sum of the per delegation floors. *)
Definition bondedTokens (k : Keeper) (govAddr : GovernorAddress) : Z :=
  foldr Z.add 0 (exactTokens k <$> delegationsOf k govAddr).

End spec.

(** ** The governor query of the gRPC server *)

Module grpc_query.
Import v1 keeper.

Inductive Code : Type := InvalidArgument | NotFound | Internal.

(** [status.Error(code, message)]. *)
Record Status : Type := mkStatus { code : Code; message : string }.

(** What a handler returns: a response, or [nil] and an error. *)
Inductive reply (A : Type) : Type :=
  | Reply (response : A)
  | Error (st : Status).
Arguments Reply {A} response.
Arguments Error {A} st.

Record QueryGovernorRequest : Type := mkQueryGovernorRequest {
  RequestGovernorAddress : string
}.

Section handlers.

(** [types.GovernorAddressFromBech32] is not among the sources: the
    address a text decodes to, or the text of the error. *)
Variable GovernorAddressFromBech32 : string → GovernorAddress + string.

(** [Governor] (lines 286 to 308 of the query server); the request is a
    pointer, [None] when nil. *)
Definition Governor (k : Keeper) (req : option QueryGovernorRequest)
  : reply v1.Governor :=
  match req with
  | None => Error (mkStatus InvalidArgument "invalid request")
  | Some req =>
      if String.eqb (RequestGovernorAddress req) "" then
        Error (mkStatus InvalidArgument "empty governor address")
      else
        match GovernorAddressFromBech32 (RequestGovernorAddress req) with
        | inr err => Error (mkStatus InvalidArgument err)
        | inl governorAddr =>
            let '(governor, found) := GetGovernor k governorAddr in
            if negb found then
              Error (mkStatus NotFound
                       ("governor " ++ RequestGovernorAddress req ++ " doesn't exist"))
            else Reply governor
        end
  end.

End handlers.

End grpc_query.

(** * Properties *)

Import math v1 stakingtypes keeper.

(** ** The order of the power index *)

Lemma ascii_compare_trans (c : comparison) (a b d : ascii) :
  Ascii.compare a b = c → Ascii.compare b d = c → Ascii.compare a d = c.
Proof.
  unfold Ascii.compare. destruct c; intros H1 H2.
  - apply N.compare_eq_iff in H1, H2. apply N.compare_eq_iff. congruence.
  - rewrite N.compare_lt_iff in *. lia.
  - rewrite N.compare_gt_iff in *. lia.
Qed.

Lemma string_compare_refl (s : string) : String.compare s s = Eq.
Proof.
  induction s as [|a s IH]; simpl; [done|].
  assert (Ascii.compare a a = Eq) as ->; [|done].
  unfold Ascii.compare. apply N.compare_refl.
Qed.

Lemma string_compare_Lt_trans (s1 s2 s3 : string) :
  String.compare s1 s2 = Lt → String.compare s2 s3 = Lt → String.compare s1 s3 = Lt.
Proof.
  revert s2 s3. induction s1 as [|a s1 IH]; intros [|b s2] [|d s3]; simpl; try done.
  destruct (Ascii.compare a b) eqn:Hab; try done;
    destruct (Ascii.compare b d) eqn:Hbd; try done; intros H1 H2.
  - rewrite (ascii_compare_trans Eq a b d Hab Hbd). eauto.
  - apply Ascii.compare_eq_iff in Hab as ->. by rewrite Hbd.
  - apply Ascii.compare_eq_iff in Hbd as <-. by rewrite Hab.
  - by rewrite (ascii_compare_trans Lt a b d Hab Hbd).
Qed.

Lemma string_leb_trans (s1 s2 s3 : string) :
  String.leb s1 s2 = true → String.leb s2 s3 = true → String.leb s1 s3 = true.
Proof.
  unfold String.leb.
  destruct (String.compare s1 s2) eqn:H12; try done;
    destruct (String.compare s2 s3) eqn:H23; try done; intros _ _.
  - apply String.compare_eq_iff in H12 as ->. by rewrite H23.
  - apply String.compare_eq_iff in H12 as ->. by rewrite H23.
  - apply String.compare_eq_iff in H23 as <-. by rewrite H12.
  - by rewrite (string_compare_Lt_trans _ _ _ H12 H23).
Qed.

Lemma PowerKey_leb_spec (a b : PowerKey) :
  PowerKey_leb a b = true ↔ a.1 < b.1 ∨ (a.1 = b.1 ∧ String.leb a.2 b.2 = true).
Proof.
  unfold PowerKey_leb.
  rewrite orb_true_iff, andb_true_iff, Z.ltb_lt, Z.eqb_eq. done.
Qed.

#[global] Instance before_in_reverse_trans : Transitive before_in_reverse.
Proof.
  intros x y z. unfold before_in_reverse. rewrite !PowerKey_leb_spec.
  intros [H1|[H1 L1]] [H2|[H2 L2]]; try (left; lia).
  right. split; [lia|]. eapply string_leb_trans; eauto.
Qed.

#[global] Instance before_in_reverse_total : Total before_in_reverse.
Proof.
  intros x y. unfold before_in_reverse. rewrite !PowerKey_leb_spec.
  destruct (Z.lt_trichotomy x.1.1 y.1.1) as [H|[H|H]]; [right; left; lia| |left; left; lia].
  destruct (String.leb_total x.1.2 y.1.2) as [L|L].
  - right. right. split; [lia|done].
  - left. right. split; [lia|done].
Qed.

Lemma reversePowerIterator_sorted (k : Keeper) :
  StronglySorted before_in_reverse (reversePowerIterator k).
Proof. apply StronglySorted_merge_sort; apply _. Qed.

Lemma reversePowerIterator_elem_of (k : Keeper) (e : PowerKey * GovernorAddress) :
  e ∈ reversePowerIterator k ↔ governorsByPower k !! e.1 = Some e.2.
Proof.
  unfold reversePowerIterator. rewrite merge_sort_Permutation.
  destruct e as [key v]. apply elem_of_map_to_list.
Qed.

Lemma StronglySorted_sublist {A} (R : relation A) (l1 l2 : list A) :
  l1 `sublist_of` l2 → StronglySorted R l2 → StronglySorted R l1.
Proof.
  induction 1 as [|x l1 l2 Hsub IH|x l1 l2 Hsub IH]; intros Hs.
  - constructor.
  - apply StronglySorted_inv in Hs as [Hs Hall]. constructor; [auto|].
    rewrite Forall_forall in *. intros y Hy. apply Hall.
    by eapply elem_of_sublist.
  - apply StronglySorted_inv in Hs as [Hs _]. auto.
Qed.

Lemma StronglySorted_weaken {A} (R1 R2 : relation A) (l : list A) :
  (∀ x y, R1 x y → R2 x y) → StronglySorted R1 l → StronglySorted R2 l.
Proof.
  intros HR. induction 1 as [|x l Hs IH Hall]; constructor; [done|].
  eapply Forall_impl; eauto.
Qed.

(** ** Tally results *)

(** C1, as stated, fails: two tally results that differ in the
    no-with-veto count only are equal under [Equals], and the
    no-with-veto count of [EmptyTallyResult()] is not the text 0. *)
Lemma TallyResult_veto_count_ignored :
  let tr := mkTallyResult "1" "2" "3" "4" in
  let comp := mkTallyResult "1" "2" "3" "5" in
  ¬ (Equals tr comp = true ↔
       YesCount tr = YesCount comp ∧ AbstainCount tr = AbstainCount comp ∧
       NoCount tr = NoCount comp ∧ NoWithVetoCount tr = NoWithVetoCount comp)
  ∧ NoWithVetoCount EmptyTallyResult ≠ "0"%string.
Proof.
  split.
  - intros [H _]. specialize (H eq_refl) as (_ & _ & _ & H). discriminate H.
  - discriminate.
Qed.

(** C1, amended: [NewTallyResult] fills three counts (yes, abstain, no)
    with the decimal text of its arguments; two tally results are equal
    under [Equals] iff these three counts match; [EmptyTallyResult()]
    equals itself and its three counts are the text 0. *)
Theorem TallyResult_three_counts :
  (∀ yes abstain no : Int,
     YesCount (NewTallyResult yes abstain no) = Int_String yes ∧
     AbstainCount (NewTallyResult yes abstain no) = Int_String abstain ∧
     NoCount (NewTallyResult yes abstain no) = Int_String no) ∧
  (∀ tr comp : TallyResult,
     Equals tr comp = true ↔
       YesCount tr = YesCount comp ∧ AbstainCount tr = AbstainCount comp ∧
       NoCount tr = NoCount comp) ∧
  Equals EmptyTallyResult EmptyTallyResult = true ∧
  YesCount EmptyTallyResult = "0"%string ∧
  AbstainCount EmptyTallyResult = "0"%string ∧
  NoCount EmptyTallyResult = "0"%string.
Proof.
  split; [done|]. split; [|done].
  intros tr comp. unfold Equals.
  rewrite !andb_true_iff, !String.eqb_eq. tauto.
Qed.

(** ** Eligibility *)

Lemma Validate_inactive (k : Keeper) (governor : Governor) :
  IsActive governor = false →
  ValidateGovernorMinSelfDelegation k governor =
    (getGovernorBondedTokens k (GetAddress governor) ≫= λ _, Ok false).
Proof.
  intros Hin. unfold ValidateGovernorMinSelfDelegation. by rewrite Hin.
Qed.

Lemma Validate_active (k : Keeper) (governor : Governor) :
  IsActive governor = true →
  ValidateGovernorMinSelfDelegation k governor =
    (bondedTokens ← getGovernorBondedTokens k (GetAddress governor);
     match governanceDelegations k !! GetAddress governor with
     | None => Panic noSelfDelegation
     | Some del =>
         match DelegationGovernorAddress del with
         | None => Panic InvalidBech32
         | Some a =>
             if String.eqb (GetAddress governor) a then
               lt ← Int_LT bondedTokens
                      (NewIntFromString (MinGovernorSelfDelegation (GetParams k))).1;
               Ok (negb lt)
             else Panic noSelfDelegation
         end
     end).
Proof.
  intros Hact. unfold ValidateGovernorMinSelfDelegation, GetGovernanceDelegation.
  rewrite Hact. simpl negb. cbv iota.
  destruct (getGovernorBondedTokens k (GetAddress governor)) as [bt|p]; [|done].
  unfold mbind, result_bind.
  destruct (governanceDelegations k !! GetAddress governor) as [del|]; [|done].
  simpl. destruct (DelegationGovernorAddress del) as [a|]; [|done].
  simpl. destruct (String.eqb (GetAddress governor) a); simpl; [|done].
  destruct (Int_LT bt _) as [[]|]; done.
Qed.

(** C3: for an active governor whose governance delegation is absent, or
    names a governor other than the governor itself, the eligibility check
    panics; it does not return a verdict. When the bonded tokens compute,
    the panic is the one raised for a missing self-delegation, or the one
    of decoding a malformed address text. *)
Theorem active_without_self_delegation_panics (k : Keeper) (governor : Governor) :
  IsActive governor = true →
  (GetGovernanceDelegation k (GetAddress governor)).2 = false ∨
  DelegationGovernorAddress (GetGovernanceDelegation k (GetAddress governor)).1
    ≠ Some (GetAddress governor) →
  ∃ p, ValidateGovernorMinSelfDelegation k governor = Panic p ∧
       (∀ b, ValidateGovernorMinSelfDelegation k governor ≠ Ok b) ∧
       (is_Ok (getGovernorBondedTokens k (GetAddress governor)) = true →
        p = noSelfDelegation ∨ p = InvalidBech32).
Proof.
  intros Hact Hdel.
  assert (∃ p, ValidateGovernorMinSelfDelegation k governor = Panic p ∧
       (is_Ok (getGovernorBondedTokens k (GetAddress governor)) = true →
        p = noSelfDelegation ∨ p = InvalidBech32)) as (p & Hp & Hkind).
  { rewrite (Validate_active _ _ Hact).
    unfold GetGovernanceDelegation in Hdel.
    destruct (getGovernorBondedTokens k (GetAddress governor)) as [bt|p].
    2:{ exists p. split; [done|]. discriminate. }
    unfold mbind, result_bind.
    destruct (governanceDelegations k !! GetAddress governor) as [del|].
    2:{ exists noSelfDelegation. auto. }
    simpl in Hdel. destruct Hdel as [Hdel|Hdel]; [done|].
    destruct (DelegationGovernorAddress del) as [a|].
    2:{ exists InvalidBech32. auto. }
    destruct (String.eqb_spec (GetAddress governor) a) as [Heq|Hne].
    { exfalso. apply Hdel. by rewrite Heq. }
    exists noSelfDelegation. auto. }
  exists p. split; [done|]. split; [|done].
  intros b. rewrite Hp. discriminate.
Qed.

Lemma active_without_self_delegation_panics_witness :
  ∃ p, ValidateGovernorMinSelfDelegation (scenario.withCorruptGovernor 2) scenario.govX = Panic p ∧
       (∀ b, ValidateGovernorMinSelfDelegation (scenario.withCorruptGovernor 2) scenario.govX ≠ Ok b) ∧
       (is_Ok (getGovernorBondedTokens (scenario.withCorruptGovernor 2) (GetAddress scenario.govX)) = true →
        p = noSelfDelegation ∨ p = InvalidBech32).
Proof.
  apply (active_without_self_delegation_panics (scenario.withCorruptGovernor 2) scenario.govX).
  - reflexivity.
  - left. vm_compute. reflexivity.
Defined.

(** ** Iteration over the power index *)

Lemma iterateLoop_not_admitted {S} (k : Keeper) (maxGovernors : Z)
    (cb : S → Z → Governor → S * bool) entry next totGovernors (s : S) :
  entryVerdict k entry = Ok false →
  iterateLoop k maxGovernors cb (entry :: next) totGovernors s =
  iterateLoop k maxGovernors cb next totGovernors s.
Proof.
  intros Hv. simpl. unfold entryVerdict, resolve in Hv.
  destruct (totGovernors <=? maxGovernors) eqn:Hle.
  - destruct (IsActive _); [rewrite Hv|]; done.
  - destruct next; simpl; [done|]. by rewrite Hle.
Qed.

Lemma iterateLoop_calls_eligible {S} (k : Keeper) (maxGovernors : Z)
    (cb : S → Z → Governor → S * bool) iterator totGovernors (s : S) :
  Forall (λ call : Z * Governor,
            IsActive call.2 = true ∧
            ValidateGovernorMinSelfDelegation k call.2 = Ok true)
         (calls (iterateLoop k maxGovernors cb iterator totGovernors s)).
Proof.
  revert totGovernors s.
  induction iterator as [|entry next IH]; intros tot s; simpl; [constructor|].
  destruct (tot <=? maxGovernors); [|constructor].
  destruct (IsActive _) eqn:Hact; [|apply IH].
  destruct (ValidateGovernorMinSelfDelegation k _) as [[]|p] eqn:Hval;
    [|apply IH|constructor].
  destruct (cb s (int64 tot) _) as [s' []]; simpl.
  - constructor; [done|constructor].
  - constructor; [done|apply IH].
Qed.

(** C2: whatever the store and the value of [MaxGovernors], every governor
    handed to the callback has the active status (so not the inactive one)
    and passes [ValidateGovernorMinSelfDelegation]. *)
Theorem iterate_yields_only_active_eligible {S} (k : Keeper)
    (cb : S → Z → Governor → S * bool) (s : S) :
  Forall (λ call : Z * Governor,
            GetStatus call.2 = Active ∧ GetStatus call.2 ≠ Inactive ∧
            ValidateGovernorMinSelfDelegation k call.2 = Ok true)
         (calls (IterateMaxGovernorsByGovernancePower k cb s)).
Proof.
  unfold IterateMaxGovernorsByGovernancePower.
  eapply Forall_impl; [apply iterateLoop_calls_eligible|].
  intros [i g] [Hact Hval]. simpl in *.
  unfold IsActive in Hact. apply bool_decide_eq_true in Hact.
  rewrite Hact. done.
Qed.

Lemma iterateLoop_skip {S} (k : Keeper) (maxGovernors : Z)
    (cb : S → Z → Governor → S * bool) before entry next totGovernors (s : S) :
  entryVerdict k entry = Ok false →
  iterateLoop k maxGovernors cb (before ++ entry :: next) totGovernors s =
  iterateLoop k maxGovernors cb (before ++ next) totGovernors s.
Proof.
  intros Hv. revert totGovernors s.
  induction before as [|e before IH]; intros tot s.
  - by apply iterateLoop_not_admitted.
  - simpl. destruct (tot <=? maxGovernors); [|done].
    destruct (IsActive _); [|apply IH].
    destruct (ValidateGovernorMinSelfDelegation k _) as [[]|p]; [|apply IH|done].
    destruct (cb s (int64 tot) _) as [s' []]; [done|]. by rewrite IH.
Qed.

(** C10: an entry of the power index whose address has no governor record
    resolves to the zero value governor, which is not active; the
    iteration goes on as if the entry were not there: same calls, same
    indexes, same outcome, so it takes no slot and raises no panic. *)
Theorem dangling_index_entry_is_skipped {S} (k : Keeper)
    (cb : S → Z → Governor → S * bool) before entry next (s : S) :
  reversePowerIterator k = before ++ entry :: next →
  governors k !! entry.2 = None →
  GetGovernor k entry.2 = (zeroGovernor, false) ∧
  IsActive (resolve k entry) = false ∧
  entryVerdict k entry = Ok false ∧
  IterateMaxGovernorsByGovernancePower k cb s =
    iterateLoop k (Z.of_N (MaxGovernors (GetParams k))) cb (before ++ next) 0 s.
Proof.
  intros Hit Hnone.
  assert (GetGovernor k entry.2 = (zeroGovernor, false)) as Hget.
  { unfold GetGovernor. by rewrite Hnone. }
  assert (entryVerdict k entry = Ok false) as Hv.
  { unfold entryVerdict, resolve. by rewrite Hget. }
  repeat split; [done|by unfold resolve; rewrite Hget|done|].
  unfold IterateMaxGovernorsByGovernancePower. rewrite Hit.
  by apply iterateLoop_skip.
Qed.

Lemma dangling_index_entry_is_skipped_witness :
  GetGovernor (scenario.withDanglingEntry 1) scenario.entryGone.2 = (zeroGovernor, false) ∧
  IsActive (resolve (scenario.withDanglingEntry 1) scenario.entryGone) = false ∧
  entryVerdict (scenario.withDanglingEntry 1) scenario.entryGone = Ok false ∧
  IterateMaxGovernorsByGovernancePower (scenario.withDanglingEntry 1) scenario.countCalls 0%nat =
    iterateLoop (scenario.withDanglingEntry 1) 1 scenario.countCalls
      [scenario.entryA; scenario.entryB; scenario.entryC] 0 0%nat.
Proof.
  apply (dangling_index_entry_is_skipped (scenario.withDanglingEntry 1)
           scenario.countCalls [scenario.entryA] scenario.entryGone
           [scenario.entryB; scenario.entryC] 0%nat).
  - vm_compute. reflexivity.
  - vm_compute. reflexivity.
Defined.

Lemma int64_small (z : Z) : 0 ≤ z < 2 ^ 63 → int64 z = z.
Proof.
  intros [Hz0 Hz]. unfold int64. rewrite Z.mod_small by lia.
  apply Z.ltb_lt in Hz. by rewrite Hz.
Qed.

Lemma uint64_small (z : Z) : 0 ≤ z < 2 ^ 64 → uint64 z = z.
Proof. intros Hz. unfold uint64. by rewrite Z.mod_small. Qed.

Lemma admitted_true (k : Keeper) entry :
  admitted k entry = true ↔
  IsActive (resolve k entry) = true ∧
  ValidateGovernorMinSelfDelegation k (resolve k entry) = Ok true.
Proof.
  unfold admitted, entryVerdict.
  destruct (IsActive (resolve k entry)).
  - destruct (ValidateGovernorMinSelfDelegation k _) as [[]|];
      (split; [done || discriminate|intros [_ H]; done || discriminate H]).
  - split; [discriminate|intros [H _]; discriminate H].
Qed.

(** The calls of a run whose callback never stops and in which no check
    panics: the admitted entries, numbered from the running count on,
    while the count is at most [maxGovernors]. *)
Lemma iterateLoop_calls_nostop {S} (k : Keeper) (maxGovernors : Z)
    (cb : S → Z → Governor → S * bool) iterator totGovernors (s : S) :
  (∀ s i g, (cb s i g).2 = false) →
  Forall (λ e, is_Ok (entryVerdict k e) = true) iterator →
  0 ≤ totGovernors →
  totGovernors + Z.of_nat (length iterator) < 2 ^ 63 →
  calls (iterateLoop k maxGovernors cb iterator totGovernors s) =
    zip (seqZ totGovernors (maxGovernors + 1 - totGovernors))
        (resolve k <$> filter (λ e, admitted k e = true) iterator) ∧
  aborted (iterateLoop k maxGovernors cb iterator totGovernors s) = None.
Proof.
  intros Hcb Hok. revert totGovernors s.
  induction Hok as [|entry next Hentry Hnext IH]; intros tot s Htot Hlen.
  { simpl. split; [|done]. by destruct (seqZ _ _). }
  simpl in Hlen. simpl iterateLoop.
  destruct (Z.leb_spec tot maxGovernors) as [Hle|Hgt].
  2:{ rewrite seqZ_nil by lia. done. }
  pose proof (admitted_true k entry) as Hadm.
  unfold entryVerdict in Hentry. unfold resolve in *.
  destruct (IsActive (GetGovernor k entry.2).1) eqn:Hact.
  - destruct (ValidateGovernorMinSelfDelegation k _) as [[]|p] eqn:Hval; [| |done].
    + rewrite filter_cons_True by (apply Hadm; done).
      rewrite fmap_cons, seqZ_cons by lia. simpl zip.
      specialize (Hcb s (int64 tot) (GetGovernor k entry.2).1).
      destruct (cb s (int64 tot) _) as [s' stop]. simpl in Hcb. subst stop.
      destruct (IH (uint64 (tot + 1)) s') as [IHc IHa].
      * rewrite uint64_small; lia.
      * rewrite uint64_small; lia.
      * rewrite uint64_small in IHc, IHa by lia.
        rewrite (uint64_small (tot + 1)), (int64_small tot) by lia.
        unfold after_call. cbn [calls aborted]. rewrite IHc, IHa.
        replace (Z.succ tot) with (tot + 1) by lia.
        replace (Z.pred (maxGovernors + 1 - tot)) with (maxGovernors + 1 - (tot + 1)) by lia.
        done.
    + rewrite filter_cons_False; [apply IH; lia|].
      rewrite Hadm. intros [_ ?]; done.
  - rewrite filter_cons_False; [apply IH; lia|].
    rewrite Hadm. intros [? _]; done.
Qed.

(** C4, amended: the loop test compares the running count with [<=]
    before the eligibility check and before the increment. When the index
    holds fewer than 2^63 entries, no eligibility check of a visited
    entry panics and the callback never asks to stop, the callback gets
    the first [MaxGovernors + 1] admitted entries of the descending scan,
    numbered from 0 on: [min (MaxGovernors + 1) (number of admitted
    entries)] calls, so exactly [MaxGovernors + 1] when that many
    entries are admitted, and never more; the keys of these entries have
    non-increasing powers. *)
Theorem iterate_admits_MaxGovernors_plus_one {S} (k : Keeper)
    (cb : S → Z → Governor → S * bool) (s : S) :
  Z.of_nat (size (governorsByPower k)) < 2 ^ 63 →
  (∀ s i g, (cb s i g).2 = false) →
  Forall (λ e, is_Ok (entryVerdict k e) = true) (reversePowerIterator k) →
  let cap := (N.to_nat (MaxGovernors (GetParams k)) + 1)%nat in
  let allAdmitted := filter (λ e, admitted k e = true) (reversePowerIterator k) in
  let r := IterateMaxGovernorsByGovernancePower k cb s in
  calls r = zip (seqZ 0 (Z.of_nat cap)) (resolve k <$> take cap allAdmitted) ∧
  aborted r = None ∧
  length (calls r) = (cap `min` length allAdmitted)%nat ∧
  ((cap ≤ length allAdmitted)%nat → length (calls r) = cap) ∧
  StronglySorted (λ e1 e2, e2.1.1 ≤ e1.1.1) (take cap allAdmitted).
Proof.
  intros Hsize Hcb Hok cap allAdmitted r.
  assert (length (reversePowerIterator k) = size (governorsByPower k)) as Hlen.
  { unfold reversePowerIterator.
    by rewrite merge_sort_Permutation, length_map_to_list. }
  destruct (iterateLoop_calls_nostop k (Z.of_N (MaxGovernors (GetParams k))) cb
              (reversePowerIterator k) 0 s Hcb Hok) as [Hcalls Hab];
    [lia|rewrite Hlen; lia|].
  assert (calls r = zip (seqZ 0 (Z.of_nat cap)) (resolve k <$> take cap allAdmitted)) as Hr.
  { unfold r, IterateMaxGovernorsByGovernancePower. rewrite Hcalls.
    replace (Z.of_N (MaxGovernors (GetParams k)) + 1 - 0) with (Z.of_nat cap)
      by (unfold cap; lia).
    rewrite fmap_take. symmetry. apply zip_with_take_r'.
    rewrite length_seqZ. lia. }
  assert (length (calls r) = (cap `min` length allAdmitted)%nat) as Hn.
  { rewrite Hr, length_zip, length_seqZ, length_fmap, length_take. lia. }
  repeat split; [done|done|done|lia|].
  apply (StronglySorted_weaken before_in_reverse).
  { intros e1 e2. unfold before_in_reverse. rewrite PowerKey_leb_spec. lia. }
  eapply StronglySorted_sublist; [|apply reversePowerIterator_sorted].
  etrans; [apply sublist_take|apply sublist_filter].
Qed.

Lemma iterate_admits_MaxGovernors_plus_one_witness :
  let k := scenario.threeGovernors 1 "100" in
  let cap := (N.to_nat (MaxGovernors (GetParams k)) + 1)%nat in
  let allAdmitted := filter (λ e, admitted k e = true) (reversePowerIterator k) in
  let r := IterateMaxGovernorsByGovernancePower k scenario.countCalls 0%nat in
  calls r = zip (seqZ 0 (Z.of_nat cap)) (resolve k <$> take cap allAdmitted) ∧
  aborted r = None ∧
  length (calls r) = (cap `min` length allAdmitted)%nat ∧
  ((cap ≤ length allAdmitted)%nat → length (calls r) = cap) ∧
  StronglySorted (λ e1 e2, e2.1.1 ≤ e1.1.1) (take cap allAdmitted).
Proof.
  apply (iterate_admits_MaxGovernors_plus_one (scenario.threeGovernors 1 "100")
           scenario.countCalls 0%nat).
  - vm_compute. reflexivity.
  - intros s i g. reflexivity.
  - assert (reversePowerIterator (scenario.threeGovernors 1 "100") =
            [scenario.entryA; scenario.entryB; scenario.entryC]) as ->
      by (vm_compute; reflexivity).
    repeat constructor.
Defined.

(** C4, as stated, fails. With [MaxGovernors = 1] the store holds three
    active and eligible governors, A, B and C. When the entry of highest
    power belongs to an active governor without self-delegation, the
    eligibility check panics before any call: the callback is invoked 0
    times, not 2. And a callback that asks to stop at its first call is
    invoked once, not twice. *)
Lemma iterate_not_always_MaxGovernors_plus_one :
  let k := scenario.withCorruptGovernor 1 in
  let r := IterateMaxGovernorsByGovernancePower k scenario.countCalls 0%nat in
  let r' := IterateMaxGovernorsByGovernancePower (scenario.threeGovernors 1 "100")
              scenario.stopAtOnce 0%nat in
  MaxGovernors (GetParams k) = 1%N ∧
  Forall (λ g, governors k !! GetAddress g = Some g ∧ IsActive g = true ∧
               ValidateGovernorMinSelfDelegation k g = Ok true)
         [scenario.govA; scenario.govB; scenario.govC] ∧
  calls r = [] ∧ aborted r = Some noSelfDelegation ∧ length (calls r) ≠ 2%nat ∧
  calls r' = [(0, scenario.govA)] ∧ length (calls r') ≠ 2%nat.
Proof.
  intros k r r'.
  assert (calls r = []) as Hr by (vm_compute; reflexivity).
  assert (calls r' = [(0, scenario.govA)]) as Hr' by (vm_compute; reflexivity).
  rewrite Hr, Hr'.
  split; [reflexivity|]. split.
  { repeat constructor; vm_compute; reflexivity. }
  split; [reflexivity|]. split; [vm_compute; reflexivity|].
  split; [discriminate|]. split; [reflexivity|discriminate].
Qed.

(** ** Bonded tokens *)

Lemma BitLen_le_iff (z n : Z) : 0 ≤ n → BitLen z ≤ n ↔ Z.abs z < 2 ^ n.
Proof.
  intros Hn. unfold BitLen. destruct (Z.eqb_spec z 0) as [->|Hz].
  - simpl. split; [intros _; apply Z.pow_pos_nonneg; lia|lia].
  - rewrite (Z.log2_lt_pow2 (Z.abs z) n) by lia. lia.
Qed.

Lemma BitLen_truncate (x : Z) :
  BitLen x ≤ maxDecBitLen → BitLen (chopPrecisionAndTruncate x) ≤ MaxBitLen.
Proof.
  rewrite !BitLen_le_iff by done. unfold chopPrecisionAndTruncate.
  rewrite <- Z.quot_abs by done. intros Hx.
  change (Z.abs precisionReuse) with precisionReuse.
  change maxDecBitLen with (59 + MaxBitLen) in Hx.
  rewrite Z.pow_add_r in Hx by done.
  assert (2 ^ 59 ≤ precisionReuse) as Hprec by (vm_compute; discriminate).
  assert (0 < precisionReuse) as Hpos by (vm_compute; reflexivity).
  assert (0 ≤ 2 ^ MaxBitLen) as Hpow by (apply Z.pow_nonneg; done).
  apply Z.quot_lt_upper_bound; [lia|done|].
  revert Hx Hprec Hpos Hpow.
  generalize (2 ^ MaxBitLen) (2 ^ 59) precisionReuse (Z.abs x). clear x.
  intros p q r a Hx Hprec Hpos Hpow. nia.
Qed.

Lemma delegationTokens_defined (k : Keeper) (d : Delegation) :
  termDefined k d = true →
  delegationTokens k d = Ok (NewInt (codeTokens k d)).
Proof.
  unfold termDefined, codeTokens, termOperands, delegationTokens, GetValidator.
  destruct (Dec_i (GetShares d)) as [shares|] eqn:Hs; [|done]. simpl.
  destruct (sk_validators k !! GetValidatorAddr d) as [v|]; [|done]. simpl.
  destruct (Int_i (GetBondedTokens v)) as [bonded|] eqn:Hb; [|done]. simpl.
  destruct (Dec_i (GetDelegatorShares v)) as [total|] eqn:Ht; [|done]. simpl.
  rewrite !andb_true_iff, negb_true_iff, !Z.leb_le, Z.eqb_neq.
  intros [[Hne Hmul] Hquo].
  unfold Dec_MulInt. rewrite Hs, Hb. simpl.
  destruct (Z.gtb_spec (BitLen (shares * bonded)) maxDecBitLen) as [?|_]; [lia|].
  simpl. unfold Dec_Quo. simpl. rewrite Ht. simpl.
  unfold big_Quo. destruct (Z.eqb_spec total 0) as [?|_]; [done|]. simpl.
  destruct (Z.gtb_spec (BitLen (chopPrecisionAndRound
     (shares * bonded * precisionReuse * precisionReuse ÷ total))) maxDecBitLen)
    as [?|_]; [lia|].
  simpl. unfold Dec_TruncateInt. simpl. unfold NewIntFromBigInt.
  apply BitLen_truncate in Hquo.
  destruct (Z.gtb_spec (BitLen (chopPrecisionAndTruncate (chopPrecisionAndRound
     (shares * bonded * precisionReuse * precisionReuse ÷ total)))) MaxBitLen)
    as [?|_]; [lia|].
  done.
Qed.

Lemma bondedTokensLoop_sum (k : Keeper) (ds : list Delegation) (acc : Z) :
  Forall (λ d, termDefined k d = true) ds →
  partialSumsFit acc (codeTokens k <$> ds) = true →
  bondedTokensLoop k ds (NewInt acc) =
    Ok (NewInt (acc + foldr Z.add 0 (codeTokens k <$> ds))).
Proof.
  intros Hdef. revert acc.
  induction Hdef as [|d ds Hd Hds IH]; intros acc Hfit; simpl.
  { by rewrite Z.add_0_r. }
  simpl in Hfit. apply andb_true_iff in Hfit as [Hfit1 Hfit2].
  apply Z.leb_le in Hfit1.
  rewrite (delegationTokens_defined _ _ Hd). simpl.
  unfold Int_Add. simpl.
  destruct (Z.gtb_spec (BitLen (acc + codeTokens k d)) MaxBitLen) as [?|_]; [lia|].
  change (bondedTokensLoop k ds (NewInt (acc + codeTokens k d)) =
          Ok (NewInt (acc + foldr Z.add 0 (codeTokens k <$> d :: ds)))).
  rewrite (IH _ Hfit2). simpl. by rewrite Z.add_assoc.
Qed.

(** C5, as stated, fails: for a validator with one bonded token for two
    shares and a delegation of 1.999999999999999999 shares the quotient
    0.9999999999999999995 is rounded to 1 at the 18th decimal before it
    is truncated, so the code counts one token where the floor of the
    exact quotient is zero. *)
Lemma bonded_tokens_differ_from_exact_floor :
  getGovernorBondedTokens scenario.almostAll "A" = Ok (NewInt 1) ∧
  spec.bondedTokens scenario.almostAll "A" = 0.
Proof. split; vm_compute; reflexivity. Qed.

(** C5, amended: when for every delegation of the governor's account the
    validator is known with delegator shares other than zero and the
    decimal operations stay in range, and the running totals fit an
    integer of 256 bits, [getGovernorBondedTokens] returns the sum over
    the delegations of [shares.MulInt(bonded).Quo(total).TruncateInt()]:
    per delegation, the quotient of [shares × bonded] by [total] rounded
    half to even at the 18th decimal and then truncated toward zero; the
    sum itself is not rounded again. *)
Theorem getGovernorBondedTokens_is_sum_of_truncated_terms
    (k : Keeper) (govAddr : GovernorAddress) :
  Forall (λ d, termDefined k d = true) (delegationsOf k govAddr) →
  partialSumsFit 0 (codeTokens k <$> delegationsOf k govAddr) = true →
  getGovernorBondedTokens k govAddr =
    Ok (NewInt (foldr Z.add 0 (codeTokens k <$> delegationsOf k govAddr))) ∧
  Forall (λ d, ∃ shares bonded total,
            termOperands k d = Some (shares, bonded, total) ∧ total ≠ 0 ∧
            codeTokens k d =
              Z.quot (chopPrecisionAndRound
                        (Z.quot (shares * bonded * 10 ^ 18 * 10 ^ 18) total))
                     (10 ^ 18))
         (delegationsOf k govAddr).
Proof.
  intros Hdef Hfit. split.
  - unfold getGovernorBondedTokens.
    exact (bondedTokensLoop_sum k _ 0 Hdef Hfit).
  - eapply Forall_impl; [exact Hdef|]. intros d. unfold termDefined, codeTokens.
    destruct (termOperands k d) as [[[shares bonded] total]|]; [|done].
    rewrite !andb_true_iff, negb_true_iff, Z.eqb_neq. intros [[Hne _] _].
    exists shares, bonded, total. done.
Qed.

Lemma getGovernorBondedTokens_is_sum_of_truncated_terms_witness :
  getGovernorBondedTokens (scenario.threeGovernors 2 "100") "A" =
    Ok (NewInt (foldr Z.add 0
      (codeTokens (scenario.threeGovernors 2 "100") <$>
         delegationsOf (scenario.threeGovernors 2 "100") "A"))) ∧
  Forall (λ d, ∃ shares bonded total,
            termOperands (scenario.threeGovernors 2 "100") d = Some (shares, bonded, total) ∧
            total ≠ 0 ∧
            codeTokens (scenario.threeGovernors 2 "100") d =
              Z.quot (chopPrecisionAndRound
                        (Z.quot (shares * bonded * 10 ^ 18 * 10 ^ 18) total))
                     (10 ^ 18))
         (delegationsOf (scenario.threeGovernors 2 "100") "A").
Proof.
  apply (getGovernorBondedTokens_is_sum_of_truncated_terms
           (scenario.threeGovernors 2 "100") "A").
  - assert (delegationsOf (scenario.threeGovernors 2 "100") "A" =
            [mkDelegation "V" (NewDec 1000)]) as -> by (vm_compute; reflexivity).
    repeat constructor.
  - vm_compute. reflexivity.
Defined.

Lemma Int_Add_not_nil (i i2 r : Int) : Int_Add i i2 = Ok r → ∃ z, r = NewInt z.
Proof.
  unfold Int_Add. destruct (Int_i i) as [x|]; [|done].
  destruct (Int_i i2) as [y|]; [|done]. simpl.
  destruct (BitLen (x + y) >? MaxBitLen); [done|].
  intros [= <-]. by eexists.
Qed.

Lemma bondedTokensLoop_not_nil (k : Keeper) (ds : list Delegation) (acc : Z) (r : Int) :
  bondedTokensLoop k ds (NewInt acc) = Ok r → ∃ z, r = NewInt z.
Proof.
  revert acc. induction ds as [|d ds IH]; intros acc; simpl.
  { intros [= <-]. by eexists. }
  destruct (delegationTokens k d) as [bt|]; [|done]. simpl.
  destruct (Int_Add (NewInt acc) bt) as [acc'|] eqn:Hadd; [|done]. simpl.
  destruct (Int_Add_not_nil _ _ _ Hadd) as [z ->]. apply IH.
Qed.

Lemma getGovernorBondedTokens_not_nil (k : Keeper) (govAddr : GovernorAddress) (r : Int) :
  getGovernorBondedTokens k govAddr = Ok r → ∃ z, r = NewInt z.
Proof. apply (bondedTokensLoop_not_nil k _ 0). Qed.

Lemma bondedTokensLoop_panics (k : Keeper) (ds : list Delegation) (d : Delegation)
    (acc : Int) :
  d ∈ ds → is_Ok (delegationTokens k d) = false →
  is_Ok (bondedTokensLoop k ds acc) = false.
Proof.
  intros Hin Hd. revert acc.
  induction Hin as [d ds|d d' ds Hin IH]; intros acc; simpl.
  - destruct (delegationTokens k d); [done|done].
  - destruct (delegationTokens k d') as [bt|]; [|done]. simpl.
    destruct (Int_Add acc bt); [|done]. simpl. apply IH, Hd.
Qed.

(** ** Eligibility: verdicts *)

(** C6, as stated, fails: the bonded tokens are computed before the
    status is looked at, so for an inactive governor whose account holds a
    delegation to a validator without delegator shares the check panics
    and returns no verdict. *)
Lemma inactive_governor_check_can_panic :
  IsActive scenario.govI = false ∧
  ValidateGovernorMinSelfDelegation scenario.zeroShares scenario.govI
    = Panic DivisionByZero ∧
  ValidateGovernorMinSelfDelegation scenario.zeroShares scenario.govI ≠ Ok false.
Proof.
  assert (ValidateGovernorMinSelfDelegation scenario.zeroShares scenario.govI
          = Panic DivisionByZero) as H by (vm_compute; reflexivity).
  rewrite H. split; [reflexivity|]. split; [reflexivity|discriminate].
Qed.

(** C6, amended: whenever the computation of the governor's bonded tokens
    returns, the check returns false for a governor that is not active;
    and for an active governor whose governance delegation names the
    governor itself, with a configured minimum that parses to the
    integer [m], it returns true iff the bonded tokens are at least
    [m]. *)
Theorem Validate_verdict (k : Keeper) (governor : Governor) (bondedTokens : Int) :
  getGovernorBondedTokens k (GetAddress governor) = Ok bondedTokens →
  (IsActive governor = false →
   ValidateGovernorMinSelfDelegation k governor = Ok false) ∧
  (IsActive governor = true →
   ∀ del m,
     GetGovernanceDelegation k (GetAddress governor) = (del, true) →
     DelegationGovernorAddress del = Some (GetAddress governor) →
     NewIntFromString (MinGovernorSelfDelegation (GetParams k)) = (NewInt m, true) →
     ∃ b, bondedTokens = NewInt b ∧
          ValidateGovernorMinSelfDelegation k governor = Ok (m <=? b) ∧
          (ValidateGovernorMinSelfDelegation k governor = Ok true ↔ m ≤ b)).
Proof.
  intros Hbt. split.
  - intros Hin. rewrite (Validate_inactive _ _ Hin), Hbt. done.
  - intros Hact del m Hdel Haddr Hmin.
    destruct (getGovernorBondedTokens_not_nil _ _ _ Hbt) as [b ->].
    exists b. split; [done|].
    assert (ValidateGovernorMinSelfDelegation k governor = Ok (m <=? b)) as Hv.
    { rewrite (Validate_active _ _ Hact), Hbt. unfold mbind, result_bind.
      unfold GetGovernanceDelegation in Hdel.
      destruct (governanceDelegations k !! GetAddress governor) as [del'|]; [|done].
      injection Hdel as ->. rewrite Haddr, String.eqb_refl, Hmin. simpl.
      f_equal. rewrite Z.leb_antisym. done. }
    split; [done|]. rewrite Hv. split.
    + intros [= H]. by apply Z.leb_le.
    + intros H. apply Z.leb_le in H. by rewrite H.
Qed.

Lemma Validate_verdict_witness :
  ∃ b, NewInt 2000 = NewInt b ∧
       ValidateGovernorMinSelfDelegation (scenario.threeGovernors 2 "100") scenario.govA
         = Ok (100 <=? b) ∧
       (ValidateGovernorMinSelfDelegation (scenario.threeGovernors 2 "100") scenario.govA
          = Ok true ↔ 100 ≤ b).
Proof.
  assert (getGovernorBondedTokens (scenario.threeGovernors 2 "100")
            (GetAddress scenario.govA) = Ok (NewInt 2000)) as Hbt
    by (vm_compute; reflexivity).
  apply (proj2 (Validate_verdict (scenario.threeGovernors 2 "100") scenario.govA
                  (NewInt 2000) Hbt) eq_refl (scenario.selfDelegation "A") 100).
  - vm_compute. reflexivity.
  - reflexivity.
  - vm_compute. reflexivity.
Defined.

(** ** Validators without delegator shares *)

(** C8, as stated, fails: the governor's account holds a delegation to a
    validator whose delegator shares are zero; the computation of the
    bonded tokens panics with a division by zero, where the claim has it
    return with a contribution of zero. *)
Lemma zero_delegator_shares_is_a_fault :
  delegationsOf scenario.zeroShares "I" = [mkDelegation "W" (NewDec 10)] ∧
  GetValidator scenario.zeroShares "W" = (mkValidator (NewInt 0) (NewDec 0), true) ∧
  getGovernorBondedTokens scenario.zeroShares "I" = Panic DivisionByZero ∧
  getGovernorBondedTokens scenario.zeroShares "I" ≠ Ok (NewInt 0).
Proof.
  assert (getGovernorBondedTokens scenario.zeroShares "I" = Panic DivisionByZero) as H
    by (vm_compute; reflexivity).
  rewrite H. repeat split; try (vm_compute; reflexivity). discriminate.
Qed.

(** C8, amended: the division by the validator's delegator shares is not
    guarded. A delegation to a known validator whose delegator shares are
    zero makes its term panic, and with it the whole computation of the
    governor's bonded tokens: no contribution of zero is put in its place.
    The panic of the term is the division by zero as soon as the shares
    and the bonded tokens are there and their product is in range. *)
Theorem zero_delegator_shares_abort (k : Keeper) (govAddr : GovernorAddress)
    (d : Delegation) (v : Validator) :
  d ∈ delegationsOf k govAddr →
  sk_validators k !! GetValidatorAddr d = Some v →
  Dec_i (GetDelegatorShares v) = Some 0 →
  (∃ p, delegationTokens k d = Panic p) ∧
  (∃ p, getGovernorBondedTokens k govAddr = Panic p) ∧
  (∀ shares bonded,
     Dec_i (GetShares d) = Some shares → Int_i (GetBondedTokens v) = Some bonded →
     BitLen (shares * bonded) ≤ maxDecBitLen →
     delegationTokens k d = Panic DivisionByZero).
Proof.
  intros Hin Hv Hzero.
  assert (∀ shares bonded,
     Dec_i (GetShares d) = Some shares → Int_i (GetBondedTokens v) = Some bonded →
     BitLen (shares * bonded) ≤ maxDecBitLen →
     delegationTokens k d = Panic DivisionByZero) as Hdiv.
  { intros shares bonded Hs Hb Hfit.
    unfold delegationTokens, GetValidator. rewrite Hv. simpl.
    unfold Dec_MulInt. rewrite Hs, Hb. simpl.
    destruct (Z.gtb_spec (BitLen (shares * bonded)) maxDecBitLen) as [?|_]; [lia|].
    simpl. unfold Dec_Quo. simpl. rewrite Hzero. done. }
  assert (∃ p, delegationTokens k d = Panic p) as [p Hp].
  { destruct (Dec_i (GetShares d)) as [shares|] eqn:Hs.
    2:{ exists NilDereference. unfold delegationTokens, Dec_MulInt. by rewrite Hs. }
    destruct (Int_i (GetBondedTokens v)) as [bonded|] eqn:Hb.
    2:{ exists NilDereference. unfold delegationTokens, GetValidator, Dec_MulInt.
        rewrite Hv. simpl. by rewrite Hs, Hb. }
    destruct (Z.gtb_spec (BitLen (shares * bonded)) maxDecBitLen) as [Hbig|Hfit].
    - exists IntOverflow. unfold delegationTokens, GetValidator, Dec_MulInt.
      rewrite Hv. simpl. rewrite Hs, Hb. simpl.
      apply Z.lt_gt, Z.gtb_gt in Hbig. by rewrite Hbig.
    - exists DivisionByZero. eauto. }
  split; [by exists p|]. split; [|done].
  pose proof (bondedTokensLoop_panics k _ d ZeroInt Hin) as Hloop.
  rewrite Hp in Hloop. specialize (Hloop eq_refl).
  unfold getGovernorBondedTokens.
  destruct (bondedTokensLoop k _ ZeroInt) as [|q]; [done|]. by exists q.
Qed.

Lemma zero_delegator_shares_abort_witness :
  (∃ p, delegationTokens scenario.zeroShares (mkDelegation "W" (NewDec 10)) = Panic p) ∧
  (∃ p, getGovernorBondedTokens scenario.zeroShares "I" = Panic p) ∧
  (∀ shares bonded,
     Dec_i (GetShares (mkDelegation "W" (NewDec 10))) = Some shares →
     Int_i (GetBondedTokens (mkValidator (NewInt 0) (NewDec 0))) = Some bonded →
     BitLen (shares * bonded) ≤ maxDecBitLen →
     delegationTokens scenario.zeroShares (mkDelegation "W" (NewDec 10))
       = Panic DivisionByZero).
Proof.
  apply (zero_delegator_shares_abort scenario.zeroShares "I"
           (mkDelegation "W" (NewDec 10)) (mkValidator (NewInt 0) (NewDec 0))).
  - assert (delegationsOf scenario.zeroShares "I" = [mkDelegation "W" (NewDec 10)]) as ->
      by (vm_compute; reflexivity).
    apply list_elem_of_here.
  - vm_compute. reflexivity.
  - reflexivity.
Defined.

(** ** The configured minimum self-delegation *)

Lemma NewIntFromString_failed (s : string) :
  (NewIntFromString s).2 = false → (NewIntFromString s).1 = mkInt None.
Proof.
  unfold NewIntFromString. destruct (big_SetString s) as [z|]; [|done].
  destruct (BitLen z >? MaxBitLen); done.
Qed.

(** C9, as stated, fails: the flag returned by the parser is dropped. The
    text -5 is no non-negative integer, yet it parses and the check
    answers true without any error; and with the text abc, which does not
    parse, the check of an inactive governor answers false without any
    error. *)
Lemma unparsable_minimum_not_reported :
  NewIntFromString "-5" = (NewInt (-5), true) ∧
  ValidateGovernorMinSelfDelegation (scenario.threeGovernors 2 "-5") scenario.govA
    = Ok true ∧
  NewIntFromString "abc" = (mkInt None, false) ∧
  ValidateGovernorMinSelfDelegation (scenario.retiredOnly "abc") scenario.govI
    = Ok false.
Proof. repeat split; vm_compute; reflexivity. Qed.

(** C9, amended: when the configured minimum does not parse as an integer
    the failure of the parser is not looked at. The check of an active
    governor then returns no verdict: it panics, and when the bonded
    tokens compute and the governance delegation names the governor
    itself, the panic is the nil dereference of the comparison with the
    zero value threshold. The check of a governor that is not active
    returns false whenever its bonded tokens compute. *)
Theorem unparsable_minimum_self_delegation (k : Keeper) (governor : Governor) :
  (NewIntFromString (MinGovernorSelfDelegation (GetParams k))).2 = false →
  (IsActive governor = true →
   ∃ p, ValidateGovernorMinSelfDelegation k governor = Panic p ∧
        (∀ bondedTokens del,
           getGovernorBondedTokens k (GetAddress governor) = Ok bondedTokens →
           GetGovernanceDelegation k (GetAddress governor) = (del, true) →
           DelegationGovernorAddress del = Some (GetAddress governor) →
           p = NilDereference)) ∧
  (IsActive governor = false →
   ∀ bondedTokens,
     getGovernorBondedTokens k (GetAddress governor) = Ok bondedTokens →
     ValidateGovernorMinSelfDelegation k governor = Ok false).
Proof.
  intros Hfail. apply NewIntFromString_failed in Hfail. split.
  - intros Hact. rewrite (Validate_active _ _ Hact), Hfail.
    unfold GetGovernanceDelegation.
    destruct (getGovernorBondedTokens k (GetAddress governor)) as [bt|p] eqn:Hbt.
    2:{ exists p. split; [done|]. intros ? ? [=]. }
    destruct (getGovernorBondedTokens_not_nil _ _ _ Hbt) as [b ->].
    unfold mbind, result_bind.
    destruct (governanceDelegations k !! GetAddress governor) as [del|].
    2:{ exists noSelfDelegation. split; [done|]. intros ? ? _ [=]. }
    destruct (DelegationGovernorAddress del) as [a|] eqn:Ha.
    2:{ exists InvalidBech32. split; [done|]. intros ? ? _ [= <-]. congruence. }
    destruct (String.eqb_spec (GetAddress governor) a) as [Heq|Hne].
    + exists NilDereference. done.
    + exists noSelfDelegation. split; [done|]. intros ? ? _ [= <-]. congruence.
  - intros Hin bt Hbt. rewrite (Validate_inactive _ _ Hin), Hbt. done.
Qed.

Lemma unparsable_minimum_self_delegation_witness :
  (∃ p, ValidateGovernorMinSelfDelegation (scenario.threeGovernors 2 "abc") scenario.govA
          = Panic p ∧
        (∀ bondedTokens del,
           getGovernorBondedTokens (scenario.threeGovernors 2 "abc")
             (GetAddress scenario.govA) = Ok bondedTokens →
           GetGovernanceDelegation (scenario.threeGovernors 2 "abc")
             (GetAddress scenario.govA) = (del, true) →
           DelegationGovernorAddress del = Some (GetAddress scenario.govA) →
           p = NilDereference)) ∧
  ValidateGovernorMinSelfDelegation (scenario.retiredOnly "abc") scenario.govI = Ok false.
Proof.
  split.
  - apply (proj1 (unparsable_minimum_self_delegation
                    (scenario.threeGovernors 2 "abc") scenario.govA eq_refl) eq_refl).
  - apply (proj2 (unparsable_minimum_self_delegation
                    (scenario.retiredOnly "abc") scenario.govI eq_refl) eq_refl ZeroInt).
    vm_compute. reflexivity.
Defined.

(** ** Updates of the power index *)

Lemma UpdateGovernorByPowerIndex_stored (k : Keeper) (governor old : Governor) :
  governors k !! GetAddress governor = Some old →
  UpdateGovernorByPowerIndex k governor =
    SetGovernor (SetGovernorByPowerIndex (DeleteGovernorByPowerIndex k old) governor)
                governor.
Proof.
  intros Hold. unfold UpdateGovernorByPowerIndex, GetGovernor. by rewrite Hold.
Qed.

Lemma entriesOf_update (addr : GovernorAddress) (k : Keeper) (governor old : Governor) :
  entriesOf addr
    (SetGovernor (SetGovernorByPowerIndex (DeleteGovernorByPowerIndex k old) governor)
                 governor) =
  filter (λ e, e.1.2 = addr)
    (<[GovernorsByPowerKey (GetAddress governor) (GetVotingPower governor) :=
         GetAddress governor]>
       (delete (GovernorsByPowerKey (GetAddress old) (GetVotingPower old))
               (governorsByPower k))).
Proof. done. Qed.

(** C7, as stated, fails: the index holds exactly one entry for governor
    A, keyed by the power 120, while the stored record of A has the power
    300. The update deletes the key of the stored power, which is not
    there, and sets the key of the new power 150: the index then holds
    two entries for A. *)
Lemma stale_index_entry_survives_update :
  let k := scenario.withStaleEntry in
  let k' := UpdateGovernorByPowerIndex k (mkGovernor "A" Active "first" 150) in
  GetGovernor k "A" = (scenario.govA, true) ∧
  size (entriesOf "A" k) = 1%nat ∧
  size (entriesOf "A" k') = 2%nat ∧
  entriesOf "A" k' = {[ (120, "A"%string) := "A"%string; (150, "A"%string) := "A"%string ]}.
Proof. repeat split; vm_compute; reflexivity. Qed.

(** C7, amended: [UpdateGovernorByPowerIndex] reads the stored record of
    the address, deletes the index entry keyed by the stored voting
    power, sets the entry keyed by the new voting power and then stores
    the new record, in this order. When, before the call, the only index
    entry of the address is the one keyed by the stored voting power,
    then after the call the only index entry of the address is the one
    keyed by the new voting power, the stored record is the new one, and
    the entries and records of every other address are as before. *)
Theorem UpdateGovernorByPowerIndex_keeps_one_entry (k : Keeper) (governor old : Governor) :
  governors k !! GetAddress governor = Some old →
  GetAddress old = GetAddress governor →
  entriesOf (GetAddress governor) k =
    {[ GovernorsByPowerKey (GetAddress old) (GetVotingPower old) := GetAddress old ]} →
  let k' := UpdateGovernorByPowerIndex k governor in
  k' = SetGovernor
         (SetGovernorByPowerIndex
            (DeleteGovernorByPowerIndex k (GetGovernor k (GetAddress governor)).1)
            governor)
         governor ∧
  (GetGovernor k (GetAddress governor)).1 = old ∧
  entriesOf (GetAddress governor) k' =
    {[ GovernorsByPowerKey (GetAddress governor) (GetVotingPower governor)
         := GetAddress governor ]} ∧
  size (entriesOf (GetAddress governor) k') = 1%nat ∧
  GetGovernor k' (GetAddress governor) = (governor, true) ∧
  (∀ a, a ≠ GetAddress governor →
        entriesOf a k' = entriesOf a k ∧ GetGovernor k' a = GetGovernor k a).
Proof.
  intros Hold Haddr Hone k'.
  assert ((GetGovernor k (GetAddress governor)).1 = old) as Hget.
  { unfold GetGovernor. by rewrite Hold. }
  assert (entriesOf (GetAddress governor) k' =
    {[ GovernorsByPowerKey (GetAddress governor) (GetVotingPower governor)
         := GetAddress governor ]}) as Hnew.
  { unfold k'. rewrite (UpdateGovernorByPowerIndex_stored _ _ _ Hold), entriesOf_update.
    rewrite map_filter_insert_True by done.
    rewrite map_filter_delete. fold (entriesOf (GetAddress governor) k).
    rewrite Hone, delete_singleton_eq, insert_empty. done. }
  split; [done|]. split; [done|]. split; [done|].
  split; [by rewrite Hnew, map_size_singleton|].
  split.
  { unfold k', UpdateGovernorByPowerIndex, SetGovernor, GetGovernor. simpl.
    by rewrite lookup_insert_eq. }
  intros a Ha. split.
  - unfold k'. rewrite (UpdateGovernorByPowerIndex_stored _ _ _ Hold), entriesOf_update.
    rewrite map_filter_insert_not by (intros y; simpl; congruence).
    rewrite map_filter_delete_not; [done|].
    intros y _. simpl. congruence.
  - unfold k', UpdateGovernorByPowerIndex, SetGovernor, GetGovernor. simpl.
    by rewrite lookup_insert_ne.
Qed.

Lemma UpdateGovernorByPowerIndex_keeps_one_entry_witness :
  let k := scenario.threeGovernors 2 "100" in
  let governor := mkGovernor "A" Active "first" 150 in
  let k' := UpdateGovernorByPowerIndex k governor in
  k' = SetGovernor
         (SetGovernorByPowerIndex
            (DeleteGovernorByPowerIndex k (GetGovernor k (GetAddress governor)).1)
            governor)
         governor ∧
  (GetGovernor k (GetAddress governor)).1 = scenario.govA ∧
  entriesOf (GetAddress governor) k' =
    {[ GovernorsByPowerKey (GetAddress governor) (GetVotingPower governor)
         := GetAddress governor ]} ∧
  size (entriesOf (GetAddress governor) k') = 1%nat ∧
  GetGovernor k' (GetAddress governor) = (governor, true) ∧
  (∀ a, a ≠ GetAddress governor →
        entriesOf a k' = entriesOf a k ∧ GetGovernor k' a = GetGovernor k a).
Proof.
  apply (UpdateGovernorByPowerIndex_keeps_one_entry (scenario.threeGovernors 2 "100")
           (mkGovernor "A" Active "first" 150) scenario.govA).
  - vm_compute. reflexivity.
  - reflexivity.
  - vm_compute. reflexivity.
Defined.

(** * Further properties of the keeper *)

(** ** The registry and the power index as stores *)

Lemma Keeper_eq (k1 k2 : Keeper) :
  governors k1 = governors k2 → governorsByPower k1 = governorsByPower k2 →
  governanceDelegations k1 = governanceDelegations k2 → params k1 = params k2 →
  sk_delegations k1 = sk_delegations k2 → sk_validators k1 = sk_validators k2 →
  k1 = k2.
Proof. destruct k1, k2; simpl; intros; by subst. Qed.

(** X1: a governor that was set is the one read back under its address,
    with the found flag; the records of the other addresses are as
    before; and setting again under the same address replaces the
    record. *)
Theorem SetGovernor_then_GetGovernor (k : Keeper) (governor : Governor) :
  (∀ addr, GetGovernor (SetGovernor k governor) addr =
           if decide (addr = GetAddress governor) then (governor, true)
           else GetGovernor k addr) ∧
  (∀ status description power,
     let governor' := mkGovernor (GetAddress governor) status description power in
     SetGovernor (SetGovernor k governor) governor' = SetGovernor k governor').
Proof.
  split.
  - intros addr. unfold GetGovernor, SetGovernor. simpl.
    destruct (decide (addr = GetAddress governor)) as [->|Hne].
    + by rewrite lookup_insert_eq.
    + by rewrite lookup_insert_ne.
  - intros status description power governor'.
    apply Keeper_eq; try done. simpl. apply insert_insert_eq.
Qed.

(** X2: deleting the index entry of a governor undoes setting it when the
    key was free, and setting it undoes deleting it when the key held the
    governor's address. *)
Theorem power_index_set_delete (k : Keeper) (governor : Governor) :
  let key := GovernorsByPowerKey (GetAddress governor) (GetVotingPower governor) in
  (governorsByPower k !! key = None →
   DeleteGovernorByPowerIndex (SetGovernorByPowerIndex k governor) governor = k) ∧
  (governorsByPower k !! key = Some (GetAddress governor) →
   SetGovernorByPowerIndex (DeleteGovernorByPowerIndex k governor) governor = k).
Proof.
  intros key. split; intros Hkey; apply Keeper_eq; try done; simpl.
  - rewrite delete_insert_eq. by apply delete_id.
  - rewrite insert_delete_eq. by apply insert_id.
Qed.

Lemma power_index_set_delete_witness :
  DeleteGovernorByPowerIndex
    (SetGovernorByPowerIndex (scenario.threeGovernors 2 "100") scenario.govX)
    scenario.govX = scenario.threeGovernors 2 "100" ∧
  SetGovernorByPowerIndex
    (DeleteGovernorByPowerIndex (scenario.threeGovernors 2 "100") scenario.govA)
    scenario.govA = scenario.threeGovernors 2 "100".
Proof.
  split.
  - apply (proj1 (power_index_set_delete (scenario.threeGovernors 2 "100") scenario.govX)).
    vm_compute. reflexivity.
  - apply (proj2 (power_index_set_delete (scenario.threeGovernors 2 "100") scenario.govA)).
    vm_compute. reflexivity.
Defined.

Lemma StronglySorted_strict {A B} (R : relation (A * B)) (l : list (A * B)) :
  StronglySorted R l → NoDup l.*1 →
  StronglySorted (λ e1 e2, R e1 e2 ∧ e1.1 ≠ e2.1) l.
Proof.
  induction 1 as [|e l Hs IH Hall]; intros Hnd; [constructor|].
  rewrite fmap_cons in Hnd. apply NoDup_cons in Hnd as [Hnotin Hnd].
  constructor; [auto|].
  rewrite Forall_forall in *. intros e' He'. split; [auto|].
  intros Heq. apply Hnotin. rewrite Heq. by apply list_elem_of_fmap_2.
Qed.

(** X3: the reverse iterator over the power index visits exactly the
    entries of the index, each once, from the largest key down: of two
    visited entries the earlier one has the strictly larger key (by
    power, then by address). *)
Theorem reversePowerIterator_visits_each_entry_once (k : Keeper) :
  (∀ key value, (key, value) ∈ reversePowerIterator k ↔
                governorsByPower k !! key = Some value) ∧
  NoDup (reversePowerIterator k).*1 ∧
  length (reversePowerIterator k) = size (governorsByPower k) ∧
  StronglySorted (λ e1 e2, PowerKey_leb e2.1 e1.1 = true ∧ e1.1 ≠ e2.1)
    (reversePowerIterator k).
Proof.
  assert (NoDup (reversePowerIterator k).*1) as Hnd.
  { unfold reversePowerIterator. rewrite merge_sort_Permutation.
    apply NoDup_fst_map_to_list. }
  split; [|split; [done|split]].
  - intros key value. apply (reversePowerIterator_elem_of k (key, value)).
  - unfold reversePowerIterator.
    by rewrite merge_sort_Permutation, length_map_to_list.
  - apply (StronglySorted_strict before_in_reverse); [|done].
    apply reversePowerIterator_sorted.
Qed.

Lemma UpdateGovernorByPowerIndex_index (k : Keeper) (governor : Governor) :
  governorsByPower (UpdateGovernorByPowerIndex k governor) =
  <[GovernorsByPowerKey (GetAddress governor) (GetVotingPower governor) :=
      GetAddress governor]>
    (delete (GovernorsByPowerKey
               (GetAddress (GetGovernor k (GetAddress governor)).1)
               (GetVotingPower (GetGovernor k (GetAddress governor)).1))
            (governorsByPower k)).
Proof. done. Qed.

Lemma UpdateGovernorByPowerIndex_governors (k : Keeper) (governor : Governor) :
  governors (UpdateGovernorByPowerIndex k governor) =
  <[GetAddress governor := governor]> (governors k).
Proof. done. Qed.

(** X4: updating the power index with the same governor twice is the same
    as updating it once, whatever the store held before. *)
Theorem UpdateGovernorByPowerIndex_idempotent (k : Keeper) (governor : Governor) :
  UpdateGovernorByPowerIndex (UpdateGovernorByPowerIndex k governor) governor =
  UpdateGovernorByPowerIndex k governor.
Proof.
  apply Keeper_eq; try done.
  - rewrite !UpdateGovernorByPowerIndex_governors. apply insert_insert_eq.
  - rewrite (UpdateGovernorByPowerIndex_index (UpdateGovernorByPowerIndex k governor)).
    assert ((GetGovernor (UpdateGovernorByPowerIndex k governor) (GetAddress governor)).1
            = governor) as ->.
    { unfold GetGovernor. rewrite UpdateGovernorByPowerIndex_governors.
      by rewrite lookup_insert_eq. }
    rewrite UpdateGovernorByPowerIndex_index.
    by rewrite delete_insert_eq, insert_delete_eq.
Qed.

Lemma indexSound_empty (k : Keeper) : governorsByPower k = ∅ → indexSound k.
Proof. intros Hempty key value. rewrite Hempty, lookup_empty. done. Qed.

Lemma indexSound_Update (k : Keeper) (governor : Governor) :
  indexSound k → indexSound (UpdateGovernorByPowerIndex k governor).
Proof.
  intros Hsound key value.
  rewrite UpdateGovernorByPowerIndex_index, UpdateGovernorByPowerIndex_governors.
  rewrite lookup_insert_Some. intros [[<- <-]|[Hne Hkey]].
  - split; [done|]. exists governor. by rewrite lookup_insert_eq.
  - apply lookup_delete_Some in Hkey as [Hold Hkey].
    destruct (Hsound key value Hkey) as (-> & g & Hg & Haddr & Hpow).
    split; [done|].
    destruct (decide (key.2 = GetAddress governor)) as [Heq|Hother].
    + exfalso. apply Hold. unfold GetGovernor. rewrite <- Heq, Hg. simpl.
      unfold GovernorsByPowerKey. rewrite Haddr, Hpow. by destruct key.
    + exists g. by rewrite lookup_insert_ne.
Qed.

(** X5: [UpdateGovernorByPowerIndex] keeps the power index sound: if every
    index entry is the entry of a stored governor, keyed by its stored
    voting power, then this still holds after the update, the updated
    governor has its entry under its new voting power, and it is the
    stored record of its address. *)
Theorem UpdateGovernorByPowerIndex_keeps_index_sound (k : Keeper) (governor : Governor) :
  indexSound k →
  indexSound (UpdateGovernorByPowerIndex k governor) ∧
  governorsByPower (UpdateGovernorByPowerIndex k governor)
    !! GovernorsByPowerKey (GetAddress governor) (GetVotingPower governor)
    = Some (GetAddress governor) ∧
  GetGovernor (UpdateGovernorByPowerIndex k governor) (GetAddress governor)
    = (governor, true).
Proof.
  intros Hsound. split; [by apply indexSound_Update|split].
  - rewrite UpdateGovernorByPowerIndex_index. apply lookup_insert_eq.
  - unfold GetGovernor. rewrite UpdateGovernorByPowerIndex_governors.
    by rewrite lookup_insert_eq.
Qed.

Lemma UpdateGovernorByPowerIndex_keeps_index_sound_witness :
  let k := UpdateGovernorByPowerIndex scenario.noGovernors scenario.govA in
  indexSound (UpdateGovernorByPowerIndex k scenario.govB) ∧
  governorsByPower (UpdateGovernorByPowerIndex k scenario.govB)
    !! GovernorsByPowerKey (GetAddress scenario.govB) (GetVotingPower scenario.govB)
    = Some (GetAddress scenario.govB) ∧
  GetGovernor (UpdateGovernorByPowerIndex k scenario.govB) (GetAddress scenario.govB)
    = (scenario.govB, true).
Proof.
  apply (UpdateGovernorByPowerIndex_keeps_index_sound
           (UpdateGovernorByPowerIndex scenario.noGovernors scenario.govA)
           scenario.govB).
  apply indexSound_Update, indexSound_empty. reflexivity.
Defined.

(** ** More on the iteration over the power index *)

(** The governors handed to the callback are those of a sublist of the
    iterator, all of them admitted. *)
Lemma iterateLoop_calls_sublist {S} (k : Keeper) (maxGovernors : Z)
    (cb : S → Z → Governor → S * bool) iterator totGovernors (s : S) :
  ∃ es, es `sublist_of` iterator ∧
        (calls (iterateLoop k maxGovernors cb iterator totGovernors s)).*2
          = resolve k <$> es ∧
        Forall (λ e, admitted k e = true) es.
Proof.
  revert totGovernors s.
  induction iterator as [|entry next IH]; intros tot s; simpl.
  { exists []. done. }
  destruct (tot <=? maxGovernors).
  2:{ exists []. split; [apply sublist_nil_l|done]. }
  pose proof (admitted_true k entry) as Hadm. unfold resolve in Hadm.
  destruct (IsActive _) eqn:Hact.
  2:{ destruct (IH tot s) as (es & Hsub & Hcalls & Hall).
      exists es. split; [by apply sublist_cons|done]. }
  destruct (ValidateGovernorMinSelfDelegation k _) as [[]|p] eqn:Hval.
  - destruct (cb s (int64 tot) _) as [s' []].
    + exists [entry]. split; [apply sublist_skip, sublist_nil_l|].
      split; [done|]. constructor; [by apply Hadm|done].
    + destruct (IH (uint64 (tot + 1)) s') as (es & Hsub & Hcalls & Hall).
      exists (entry :: es). split; [by apply sublist_skip|].
      split; [unfold after_call; cbn [calls]; by rewrite !fmap_cons, Hcalls|].
      constructor; [by apply Hadm|done].
  - destruct (IH tot s) as (es & Hsub & Hcalls & Hall).
    exists es. split; [by apply sublist_cons|done].
  - exists []. split; [apply sublist_nil_l|done].
Qed.

(** X6: every governor handed to the callback is the stored record of an
    address found in the power index; the zero value of a missing record
    is never handed over. *)
Theorem iterate_yields_stored_governors {S} (k : Keeper)
    (cb : S → Z → Governor → S * bool) (s : S) :
  Forall (λ governor, governor ≠ zeroGovernor ∧
            ∃ key addr, governorsByPower k !! key = Some addr ∧
                        governors k !! addr = Some governor)
         (calls (IterateMaxGovernorsByGovernancePower k cb s)).*2.
Proof.
  unfold IterateMaxGovernorsByGovernancePower.
  destruct (iterateLoop_calls_sublist k (Z.of_N (MaxGovernors (GetParams k))) cb
              (reversePowerIterator k) 0 s) as (es & Hsub & -> & Hall).
  rewrite Forall_fmap. rewrite Forall_forall in *. intros [key addr] He.
  specialize (Hall _ He). apply admitted_true in Hall as [Hact _].
  simpl. unfold resolve, GetGovernor in *. simpl in *.
  destruct (governors k !! addr) as [g|] eqn:Hg; [|done]. simpl in *.
  split; [intros ->; done|].
  exists key, addr. split; [|done].
  apply (reversePowerIterator_elem_of k (key, addr)).
  by eapply elem_of_sublist.
Qed.

Lemma StronglySorted_fmap_strong {A B} (R : relation A) (R' : relation B)
    (P : A → Prop) (f : A → B) (l : list A) :
  (∀ x y, P x → P y → R x y → R' (f x) (f y)) →
  Forall P l → StronglySorted R l → StronglySorted R' (f <$> l).
Proof.
  intros HR HP. induction 1 as [|x l Hs IH Hall]; [constructor|].
  apply Forall_cons in HP as [Hx HP]. rewrite fmap_cons.
  constructor; [auto|]. rewrite Forall_fmap.
  rewrite Forall_forall in *. intros y Hy. apply HR; auto.
Qed.

(** X7: when the power index is sound, the governors handed to the
    callback come in non-increasing order of their own voting power, and
    no address is handed over twice. *)
Theorem iterate_sound_index_descending_distinct {S} (k : Keeper)
    (cb : S → Z → Governor → S * bool) (s : S) :
  indexSound k →
  StronglySorted (λ g1 g2, GetVotingPower g2 ≤ GetVotingPower g1 ∧
                           GetAddress g1 ≠ GetAddress g2)
    (calls (IterateMaxGovernorsByGovernancePower k cb s)).*2.
Proof.
  intros Hsound. unfold IterateMaxGovernorsByGovernancePower.
  destruct (iterateLoop_calls_sublist k (Z.of_N (MaxGovernors (GetParams k))) cb
              (reversePowerIterator k) 0 s) as (es & Hsub & -> & _).
  apply (StronglySorted_fmap_strong
           (λ e1 e2, PowerKey_leb e2.1 e1.1 = true ∧ e1.1 ≠ e2.1) _
           (λ e, governorsByPower k !! e.1 = Some e.2)).
  - intros [key1 a1] [key2 a2] H1 H2 [Hle Hne]. simpl in *.
    destruct (Hsound _ _ H1) as (-> & g1 & Hg1 & Ha1 & Hp1).
    destruct (Hsound _ _ H2) as (-> & g2 & Hg2 & Ha2 & Hp2).
    unfold resolve, GetGovernor. simpl. rewrite Hg1, Hg2. simpl.
    apply PowerKey_leb_spec in Hle. split; [lia|].
    rewrite Ha1, Ha2. intros Heq. apply Hne.
    rewrite Heq in Hg1. rewrite Hg1 in Hg2. injection Hg2 as ->.
    destruct key1, key2; simpl in *; congruence.
  - rewrite Forall_forall. intros e He.
    apply reversePowerIterator_elem_of. by eapply elem_of_sublist.
  - eapply StronglySorted_sublist; [exact Hsub|].
    apply (StronglySorted_strict before_in_reverse).
    + apply reversePowerIterator_sorted.
    + unfold reversePowerIterator. rewrite merge_sort_Permutation.
      apply NoDup_fst_map_to_list.
Qed.

Lemma iterate_sound_index_descending_distinct_witness :
  StronglySorted (λ g1 g2, GetVotingPower g2 ≤ GetVotingPower g1 ∧
                           GetAddress g1 ≠ GetAddress g2)
    (calls (IterateMaxGovernorsByGovernancePower
              (UpdateGovernorByPowerIndex
                 (UpdateGovernorByPowerIndex scenario.noGovernors scenario.govA)
                 scenario.govB)
              scenario.countCalls 0%nat)).*2.
Proof.
  apply (iterate_sound_index_descending_distinct
           (UpdateGovernorByPowerIndex
              (UpdateGovernorByPowerIndex scenario.noGovernors scenario.govA)
              scenario.govB)
           scenario.countCalls 0%nat).
  apply indexSound_Update, indexSound_Update, indexSound_empty. reflexivity.
Defined.

Lemma iterateLoop_indexes {S} (k : Keeper) (maxGovernors : Z)
    (cb : S → Z → Governor → S * bool) iterator totGovernors (s : S) :
  0 ≤ totGovernors →
  totGovernors + Z.of_nat (length iterator) < 2 ^ 63 →
  let cs := calls (iterateLoop k maxGovernors cb iterator totGovernors s) in
  cs.*1 = seqZ totGovernors (Z.of_nat (length cs)) ∧
  totGovernors + Z.of_nat (length cs) ≤ Z.max totGovernors (maxGovernors + 1).
Proof.
  revert totGovernors s.
  induction iterator as [|entry next IH]; intros tot s Htot Hlen; simpl in *.
  { split; [done|lia]. }
  destruct (Z.leb_spec tot maxGovernors) as [Hle|Hgt]; [|simpl; split; [done|lia]].
  destruct (IsActive _); [|apply IH; lia].
  destruct (ValidateGovernorMinSelfDelegation k _) as [[]|p];
    [|apply IH; lia|simpl; split; [done|lia]].
  rewrite (int64_small tot) by lia.
  destruct (cb s tot _) as [s' []].
  { simpl. split; [done|lia]. }
  rewrite uint64_small by lia.
  destruct (IH (tot + 1) s') as [IH1 IH2]; [lia|lia|].
  unfold after_call. cbn [calls]. rewrite fmap_cons. cbn [length fst].
  split.
  - rewrite IH1. rewrite (seqZ_cons tot) by lia. f_equal. f_equal; lia.
  - lia.
Qed.

Lemma reversePowerIterator_length (k : Keeper) :
  length (reversePowerIterator k) = size (governorsByPower k).
Proof.
  unfold reversePowerIterator. by rewrite merge_sort_Permutation, length_map_to_list.
Qed.

(** X8: whatever the callback answers and whether or not the iteration
    ends in a panic, the callback is invoked at most [MaxGovernors + 1]
    times (for an index of fewer than 2^63 entries). *)
Theorem iterate_at_most_MaxGovernors_plus_one {S} (k : Keeper)
    (cb : S → Z → Governor → S * bool) (s : S) :
  Z.of_nat (size (governorsByPower k)) < 2 ^ 63 →
  (length (calls (IterateMaxGovernorsByGovernancePower k cb s))
   ≤ N.to_nat (MaxGovernors (GetParams k)) + 1)%nat.
Proof.
  intros Hsize. unfold IterateMaxGovernorsByGovernancePower.
  destruct (iterateLoop_indexes k (Z.of_N (MaxGovernors (GetParams k))) cb
              (reversePowerIterator k) 0 s) as [_ Hcap];
    [lia|rewrite reversePowerIterator_length; lia|].
  lia.
Qed.

Lemma iterate_at_most_MaxGovernors_plus_one_witness :
  (length (calls (IterateMaxGovernorsByGovernancePower
                    (scenario.threeGovernors 0 "100") scenario.countCalls 0%nat))
   ≤ N.to_nat (MaxGovernors (GetParams (scenario.threeGovernors 0 "100"))) + 1)%nat.
Proof.
  apply (iterate_at_most_MaxGovernors_plus_one (scenario.threeGovernors 0 "100")
           scenario.countCalls 0%nat).
  vm_compute. reflexivity.
Defined.

(** X9: the indexes handed to the callback count the calls from 0 on,
    without a gap: the n-th call gets the index n (for an index of fewer
    than 2^63 entries). *)
Theorem iterate_indexes_count_from_zero {S} (k : Keeper)
    (cb : S → Z → Governor → S * bool) (s : S) :
  Z.of_nat (size (governorsByPower k)) < 2 ^ 63 →
  (calls (IterateMaxGovernorsByGovernancePower k cb s)).*1 =
  seqZ 0 (Z.of_nat (length (calls (IterateMaxGovernorsByGovernancePower k cb s)))).
Proof.
  intros Hsize. unfold IterateMaxGovernorsByGovernancePower.
  destruct (iterateLoop_indexes k (Z.of_N (MaxGovernors (GetParams k))) cb
              (reversePowerIterator k) 0 s) as [Hidx _];
    [lia|rewrite reversePowerIterator_length; lia|].
  exact Hidx.
Qed.

Lemma iterate_indexes_count_from_zero_witness :
  (calls (IterateMaxGovernorsByGovernancePower
            (scenario.threeGovernors 5 "100") scenario.countCalls 0%nat)).*1 =
  seqZ 0 (Z.of_nat (length (calls (IterateMaxGovernorsByGovernancePower
            (scenario.threeGovernors 5 "100") scenario.countCalls 0%nat)))).
Proof.
  apply (iterate_indexes_count_from_zero (scenario.threeGovernors 5 "100")
           scenario.countCalls 0%nat).
  vm_compute. reflexivity.
Defined.

Lemma iterateLoop_stop_is_last {St} (k : Keeper) (maxGovernors : Z)
    (cb : St → Z → Governor → St * bool) (asksToStop : Z → Governor → bool)
    iterator totGovernors (s : St) :
  (∀ s i g, (cb s i g).2 = asksToStop i g) →
  ∀ n call,
    calls (iterateLoop k maxGovernors cb iterator totGovernors s) !! n = Some call →
    asksToStop call.1 call.2 = true →
    length (calls (iterateLoop k maxGovernors cb iterator totGovernors s)) = S n.
Proof.
  intros Hcb. revert totGovernors s.
  induction iterator as [|entry next IH]; intros tot s n call; simpl; [done|].
  destruct (tot <=? maxGovernors); [|done].
  destruct (IsActive _); [|apply IH].
  destruct (ValidateGovernorMinSelfDelegation k _) as [[]|p]; [|apply IH|done].
  specialize (Hcb s (int64 tot) (GetGovernor k entry.2).1).
  destruct (cb s (int64 tot) _) as [s' stop]. simpl in Hcb. subst stop.
  destruct (asksToStop (int64 tot) _) eqn:Hstop; simpl.
  - destruct n as [|n]; [done|]. simpl. by rewrite lookup_nil.
  - destruct n as [|n]; simpl.
    + intros [= <-]. simpl. congruence.
    + intros Hn Hask. f_equal. by eapply IH.
Qed.

(** X10: a request to stop ends the iteration. For a callback whose
    answer depends on the index and the governor only, a call that is
    answered with a request to stop is the last call. *)
Theorem iterate_stop_request_is_last_call {St} (k : Keeper)
    (cb : St → Z → Governor → St * bool) (asksToStop : Z → Governor → bool) (s : St) :
  (∀ s i g, (cb s i g).2 = asksToStop i g) →
  ∀ n call,
    calls (IterateMaxGovernorsByGovernancePower k cb s) !! n = Some call →
    asksToStop call.1 call.2 = true →
    length (calls (IterateMaxGovernorsByGovernancePower k cb s)) = S n.
Proof. intros Hcb. by apply iterateLoop_stop_is_last. Qed.

Lemma iterate_stop_request_is_last_call_witness :
  length (calls (IterateMaxGovernorsByGovernancePower
                   (scenario.threeGovernors 5 "100") scenario.stopAtB 0%nat)) = 2%nat.
Proof.
  apply (iterate_stop_request_is_last_call (scenario.threeGovernors 5 "100")
           scenario.stopAtB (λ _ g, String.eqb (GetAddress g) "B") 0%nat
           (λ _ _ _, eq_refl) 1%nat (1, scenario.govB)).
  - vm_compute. reflexivity.
  - reflexivity.
Defined.




(** ** More on the bonded tokens *)

(** X12: an account without staking delegations has zero bonded tokens;
    its governor, when active and delegating to itself, is eligible iff
    the configured minimum is at most zero. *)
Theorem governor_without_stake (k : Keeper) (governor : Governor) :
  delegationsOf k (GetAddress governor) = [] →
  getGovernorBondedTokens k (GetAddress governor) = Ok ZeroInt ∧
  (∀ del m,
     IsActive governor = true →
     governanceDelegations k !! GetAddress governor = Some del →
     DelegationGovernorAddress del = Some (GetAddress governor) →
     NewIntFromString (MinGovernorSelfDelegation (GetParams k)) = (NewInt m, true) →
     ValidateGovernorMinSelfDelegation k governor = Ok (m <=? 0)).
Proof.
  intros Hnone.
  assert (getGovernorBondedTokens k (GetAddress governor) = Ok ZeroInt) as Hbt.
  { unfold getGovernorBondedTokens. by rewrite Hnone. }
  split; [done|]. intros del m Hact Hdel Haddr Hmin.
  rewrite (Validate_active _ _ Hact), Hbt. unfold mbind, result_bind.
  rewrite Hdel, Haddr, String.eqb_refl, Hmin. simpl.
  f_equal. by rewrite Z.leb_antisym.
Qed.

Lemma governor_without_stake_witness :
  getGovernorBondedTokens (scenario.unstaked "0") (GetAddress scenario.govX) = Ok ZeroInt ∧
  ValidateGovernorMinSelfDelegation (scenario.unstaked "0") scenario.govX = Ok (0 <=? 0).
Proof.
  assert (delegationsOf (scenario.unstaked "0") (GetAddress scenario.govX) = [])
    as Hnone by (vm_compute; reflexivity).
  split.
  - apply (proj1 (governor_without_stake (scenario.unstaked "0") scenario.govX Hnone)).
  - apply (proj2 (governor_without_stake (scenario.unstaked "0") scenario.govX Hnone)
             (scenario.selfDelegation "X") 0).
    + reflexivity.
    + vm_compute. reflexivity.
    + reflexivity.
    + vm_compute. reflexivity.
Defined.

(** X13: the found flag of the validator lookup is dropped: a delegation
    with shares to a validator that the staking keeper does not know
    makes the computation of the bonded tokens panic; the term of that
    delegation panics with a nil dereference. *)
Theorem unknown_validator_aborts (k : Keeper) (govAddr : GovernorAddress)
    (d : Delegation) (shares : Z) :
  d ∈ delegationsOf k govAddr →
  Dec_i (GetShares d) = Some shares →
  sk_validators k !! GetValidatorAddr d = None →
  delegationTokens k d = Panic NilDereference ∧
  ∃ p, getGovernorBondedTokens k govAddr = Panic p.
Proof.
  intros Hin Hshares Hnone.
  assert (delegationTokens k d = Panic NilDereference) as Hd.
  { unfold delegationTokens, GetValidator. rewrite Hnone. simpl.
    unfold Dec_MulInt. rewrite Hshares. simpl.
    rewrite Z.mul_0_r. simpl. done. }
  split; [done|].
  pose proof (bondedTokensLoop_panics k _ d ZeroInt Hin) as Hloop.
  rewrite Hd in Hloop. specialize (Hloop eq_refl).
  unfold getGovernorBondedTokens.
  destruct (bondedTokensLoop k _ ZeroInt) as [|q]; [done|]. by exists q.
Qed.

Lemma unknown_validator_aborts_witness :
  delegationTokens scenario.unknownValidator (mkDelegation "nobody" (NewDec 10))
    = Panic NilDereference ∧
  ∃ p, getGovernorBondedTokens scenario.unknownValidator "I" = Panic p.
Proof.
  apply (unknown_validator_aborts scenario.unknownValidator "I"
           (mkDelegation "nobody" (NewDec 10)) (10 * precisionReuse)).
  - assert (delegationsOf scenario.unknownValidator "I"
            = [mkDelegation "nobody" (NewDec 10)]) as -> by (vm_compute; reflexivity).
    apply list_elem_of_here.
  - reflexivity.
  - vm_compute. reflexivity.
Defined.

Lemma chopPrecisionAndRound_bounds (d : Z) :
  0 ≤ d →
  d / precisionReuse ≤ chopPrecisionAndRound d ≤ d / precisionReuse + 1.
Proof.
  intros Hd. unfold chopPrecisionAndRound.
  destruct (Z.ltb_spec d 0) as [?|_]; [lia|].
  unfold chopPrecisionAndRoundNonNeg.
  rewrite Z.quot_div_nonneg by done.
  destruct (Z.rem d precisionReuse =? 0); [lia|].
  destruct (Z.rem d precisionReuse ?= fivePrecision); [|lia|lia].
  destruct (Z.even _); lia.
Qed.

Lemma div_scaled (x m d : Z) : 0 < m → 0 < d → x * m / d / m = x / d.
Proof.
  intros Hm Hd. rewrite Z.div_div by lia.
  apply Z.div_mul_cancel_r; lia.
Qed.

Lemma tokensOfShares_bounds (shares bonded total : Z) :
  0 ≤ shares → 0 ≤ bonded → 0 < total →
  Z.quot (shares * bonded) total ≤ tokensOfShares shares bonded total
    ≤ Z.quot (shares * bonded) total + 1.
Proof.
  intros Hs Hb Ht. unfold tokensOfShares, chopPrecisionAndTruncate.
  assert (0 < precisionReuse) as HP by done.
  assert (0 ≤ shares * bonded) as Hsb by lia.
  set (x := shares * bonded) in *.
  rewrite (Z.quot_div_nonneg x) by lia.
  assert (0 ≤ x * precisionReuse * precisionReuse) as Hx by lia.
  rewrite (Z.quot_div_nonneg (x * precisionReuse * precisionReuse)) by lia.
  set (q := x * precisionReuse * precisionReuse / total).
  assert (0 ≤ q) as Hq by (apply Z.div_pos; lia).
  assert (q / precisionReuse / precisionReuse = x / total) as Hexact.
  { unfold q. rewrite Z.div_div by lia. rewrite <- Z.mul_assoc.
    apply div_scaled; lia. }
  destruct (chopPrecisionAndRound_bounds q Hq) as [Hlo Hhi].
  assert (0 ≤ q / precisionReuse) as Hq' by (apply Z.div_pos; lia).
  rewrite Z.quot_div_nonneg by lia.
  rewrite <- Hexact. split.
  - by apply Z.div_le_mono.
  - etrans; [apply Z.div_le_mono; [lia|exact Hhi]|].
    etrans; [apply (Z.div_le_mono _ (q / precisionReuse + 1 * precisionReuse)); lia|].
    rewrite Z.div_add by lia. lia.
Qed.

Lemma exactTokens_operands (k : Keeper) (d : Delegation) (shares bonded total : Z) :
  termOperands k d = Some (shares, bonded, total) →
  spec.exactTokens k d = Z.quot (shares * bonded) total ∧
  codeTokens k d = tokensOfShares shares bonded total.
Proof.
  intros Hop. unfold spec.exactTokens, codeTokens, GetValidator. rewrite Hop.
  unfold termOperands in Hop.
  destruct (Dec_i (GetShares d)) as [s|]; simpl in Hop; [|discriminate Hop].
  destruct (sk_validators k !! GetValidatorAddr d) as [v|];
    simpl in Hop; [|discriminate Hop].
  simpl.
  destruct (Int_i (GetBondedTokens v)) as [b|]; simpl in Hop; [|discriminate Hop].
  destruct (Dec_i (GetDelegatorShares v)) as [t|]; simpl in Hop; [|discriminate Hop].
  injection Hop as -> -> ->. done.
Qed.

(** X14: for a delegation with non-negative shares to a validator with
    non-negative bonded tokens and positive delegator shares, the tokens
    the code attributes to the delegation are the floor of the exact
    quotient [shares × bonded ÷ total], or one more: the rounding of the
    decimal division never loses a token and adds at most one. *)
Theorem delegation_tokens_within_one_of_exact (k : Keeper) (d : Delegation)
    (shares bonded total : Z) :
  termDefined k d = true →
  termOperands k d = Some (shares, bonded, total) →
  0 ≤ shares → 0 ≤ bonded → 0 < total →
  ∃ tokens, delegationTokens k d = Ok (NewInt tokens) ∧
            Z.quot (shares * bonded) total ≤ tokens
              ≤ Z.quot (shares * bonded) total + 1.
Proof.
  intros Hdef Hop Hs Hb Ht. exists (codeTokens k d).
  split; [by apply delegationTokens_defined|].
  destruct (exactTokens_operands _ _ _ _ _ Hop) as [_ ->].
  by apply tokensOfShares_bounds.
Qed.

Lemma delegation_tokens_within_one_of_exact_witness :
  ∃ tokens,
    delegationTokens scenario.almostAll
      (mkDelegation "U" (mkDec (Some 1999999999999999999))) = Ok (NewInt tokens) ∧
    Z.quot (1999999999999999999 * 1) (2 * precisionReuse) ≤ tokens
      ≤ Z.quot (1999999999999999999 * 1) (2 * precisionReuse) + 1.
Proof.
  apply (delegation_tokens_within_one_of_exact scenario.almostAll
           (mkDelegation "U" (mkDec (Some 1999999999999999999)))
           1999999999999999999 1 (2 * precisionReuse)).
  - vm_compute. reflexivity.
  - vm_compute. reflexivity.
  - vm_compute. discriminate.
  - vm_compute. discriminate.
  - vm_compute. reflexivity.
Defined.

Lemma sum_bounds (k : Keeper) (ds : list Delegation) :
  Forall (λ d, ∃ shares bonded total,
            termOperands k d = Some (shares, bonded, total) ∧
            0 ≤ shares ∧ 0 ≤ bonded ∧ 0 < total) ds →
  0 ≤ foldr Z.add 0 (spec.exactTokens k <$> ds) ∧
  foldr Z.add 0 (spec.exactTokens k <$> ds)
    ≤ foldr Z.add 0 (codeTokens k <$> ds)
    ≤ foldr Z.add 0 (spec.exactTokens k <$> ds) + Z.of_nat (length ds).
Proof.
  induction 1 as [|d ds (shares & bonded & total & Hop & Hs & Hb & Ht) Hds IH];
    [simpl; lia|].
  rewrite !fmap_cons. cbn [foldr length].
  destruct (exactTokens_operands _ _ _ _ _ Hop) as [-> ->].
  pose proof (tokensOfShares_bounds shares bonded total Hs Hb Ht) as Hbound.
  assert (0 ≤ Z.quot (shares * bonded) total) as Hexact.
  { rewrite Z.quot_div_nonneg by lia. apply Z.div_pos; lia. }
  revert Hbound Hexact IH.
  generalize (Z.quot (shares * bonded) total) (tokensOfShares shares bonded total)
    (foldr Z.add 0 (spec.exactTokens k <$> ds)) (foldr Z.add 0 (codeTokens k <$> ds)).
  intros e c es cs Hbound Hexact IH. lia.
Qed.

(** X15: when every delegation of the account has non-negative shares and
    goes to a known validator with non-negative bonded tokens and
    positive delegator shares (and all values are in range), the bonded
    tokens are not negative, not below the sum of the exact floors, and
    above it by at most one token per delegation. *)
Theorem bonded_tokens_within_rounding_of_exact (k : Keeper) (govAddr : GovernorAddress) :
  Forall (λ d, termDefined k d = true) (delegationsOf k govAddr) →
  partialSumsFit 0 (codeTokens k <$> delegationsOf k govAddr) = true →
  Forall (λ d, ∃ shares bonded total,
            termOperands k d = Some (shares, bonded, total) ∧
            0 ≤ shares ∧ 0 ≤ bonded ∧ 0 < total) (delegationsOf k govAddr) →
  ∃ tokens,
    getGovernorBondedTokens k govAddr = Ok (NewInt tokens) ∧
    0 ≤ tokens ∧
    spec.bondedTokens k govAddr ≤ tokens
      ≤ spec.bondedTokens k govAddr + Z.of_nat (length (delegationsOf k govAddr)).
Proof.
  intros Hdef Hfit Hpos.
  exists (foldr Z.add 0 (codeTokens k <$> delegationsOf k govAddr)).
  split; [exact (bondedTokensLoop_sum k _ 0 Hdef Hfit)|].
  destruct (sum_bounds k _ Hpos) as [H0 Hb]. unfold spec.bondedTokens. lia.
Qed.

Lemma bonded_tokens_within_rounding_of_exact_witness :
  ∃ tokens,
    getGovernorBondedTokens scenario.almostAll "A" = Ok (NewInt tokens) ∧
    0 ≤ tokens ∧
    spec.bondedTokens scenario.almostAll "A" ≤ tokens
      ≤ spec.bondedTokens scenario.almostAll "A"
        + Z.of_nat (length (delegationsOf scenario.almostAll "A")).
Proof.
  assert (delegationsOf scenario.almostAll "A" =
          [mkDelegation "U" (mkDec (Some 1999999999999999999))]) as Hds
    by (vm_compute; reflexivity).
  apply (bonded_tokens_within_rounding_of_exact scenario.almostAll "A").
  - rewrite Hds. repeat constructor.
  - vm_compute. reflexivity.
  - rewrite Hds. constructor; [|constructor].
    exists 1999999999999999999, 1, (2 * precisionReuse).
    split; [vm_compute; reflexivity|]. split; [vm_compute; discriminate|].
    split; [vm_compute; discriminate|vm_compute; reflexivity].
Defined.

(** ** What a verdict of the eligibility check certifies *)

Lemma NewIntFromString_not_nil (s : string) (m : Z) :
  (NewIntFromString s).1 = NewInt m → NewIntFromString s = (NewInt m, true).
Proof.
  unfold NewIntFromString. destruct (big_SetString s) as [z|]; [|done].
  destruct (BitLen z >? MaxBitLen); [done|]. simpl. by intros [= ->].
Qed.

(** X16: the eligibility check answers true only for an active governor
    whose governance delegation exists and names the governor itself,
    whose bonded tokens compute, and whose configured minimum parses to
    an integer that the bonded tokens reach; it answers false only for a
    governor that is not active, or for such a governor whose bonded
    tokens stay below the parsed minimum. *)
Theorem Validate_verdict_certifies (k : Keeper) (governor : Governor) (verdict : bool) :
  ValidateGovernorMinSelfDelegation k governor = Ok verdict →
  ∃ b, getGovernorBondedTokens k (GetAddress governor) = Ok (NewInt b) ∧
       ((IsActive governor = false ∧ verdict = false) ∨
        (IsActive governor = true ∧
         ∃ del m,
           governanceDelegations k !! GetAddress governor = Some del ∧
           DelegationGovernorAddress del = Some (GetAddress governor) ∧
           NewIntFromString (MinGovernorSelfDelegation (GetParams k)) = (NewInt m, true) ∧
           verdict = (m <=? b))).
Proof.
  intros Hv.
  destruct (getGovernorBondedTokens k (GetAddress governor)) as [bt|p] eqn:Hbt.
  2:{ unfold ValidateGovernorMinSelfDelegation in Hv. by rewrite Hbt in Hv. }
  destruct (getGovernorBondedTokens_not_nil _ _ _ Hbt) as [b ->].
  exists b. split; [done|].
  destruct (IsActive governor) eqn:Hact.
  - right. split; [done|].
    rewrite (Validate_active _ _ Hact), Hbt in Hv. unfold mbind, result_bind in Hv.
    destruct (governanceDelegations k !! GetAddress governor) as [del|]; [|done].
    destruct (DelegationGovernorAddress del) as [a|] eqn:Ha; [|done].
    destruct (String.eqb_spec (GetAddress governor) a) as [<-|]; [|done].
    destruct ((NewIntFromString (MinGovernorSelfDelegation (GetParams k))).1)
      as [[m|]] eqn:Hmin; [|done].
    simpl in Hv. injection Hv as <-.
    exists del, m. split; [done|]. split; [done|].
    split; [by apply NewIntFromString_not_nil|].
    by rewrite Z.leb_antisym.
  - left. split; [done|].
    rewrite (Validate_inactive _ _ Hact), Hbt in Hv. simpl in Hv. congruence.
Qed.

Lemma Validate_verdict_certifies_witness :
  ∃ b, getGovernorBondedTokens (scenario.threeGovernors 2 "100")
         (GetAddress scenario.govC) = Ok (NewInt b) ∧
       ((IsActive scenario.govC = false ∧ true = false) ∨
        (IsActive scenario.govC = true ∧
         ∃ del m,
           governanceDelegations (scenario.threeGovernors 2 "100")
             !! GetAddress scenario.govC = Some del ∧
           DelegationGovernorAddress del = Some (GetAddress scenario.govC) ∧
           NewIntFromString
             (MinGovernorSelfDelegation (GetParams (scenario.threeGovernors 2 "100")))
             = (NewInt m, true) ∧
           true = (m <=? b))).
Proof.
  apply (Validate_verdict_certifies (scenario.threeGovernors 2 "100") scenario.govC true).
  vm_compute. reflexivity.
Defined.

(** ** Tally results and the helpers of the tally *)

(** X17: [Equals] is an equivalence on tally results: every tally result
    equals itself, and the relation is symmetric and transitive. *)
Theorem TallyResult_Equals_equivalence :
  (∀ tr, Equals tr tr = true) ∧
  (∀ tr comp, Equals tr comp = Equals comp tr) ∧
  (∀ tr1 tr2 tr3, Equals tr1 tr2 = true → Equals tr2 tr3 = true →
                  Equals tr1 tr3 = true).
Proof.
  split; [|split].
  - intros tr. unfold Equals. by rewrite !String.eqb_refl.
  - intros tr comp. unfold Equals.
    by rewrite (String.eqb_sym (YesCount tr)), (String.eqb_sym (AbstainCount tr)),
      (String.eqb_sym (NoCount tr)).
  - intros tr1 tr2 tr3. unfold Equals.
    rewrite !andb_true_iff, !String.eqb_eq.
    intros [[-> ->] ->] [[-> ->] ->]. done.
Qed.

Lemma Int_String_inj (a b : Z) :
  Int_String (NewInt a) = Int_String (NewInt b) → a = b.
Proof.
  unfold Int_String. simpl. intros Heq.
  apply DecimalZ.to_int_inj.
  assert (NilZero.int_of_string (NilZero.string_of_int (Z.to_int a)) =
          NilZero.int_of_string (NilZero.string_of_int (Z.to_int b))) as Hparse
    by (by rewrite Heq).
  rewrite !NilZero.isi in Hparse.
  - congruence.
  - destruct b; simpl; [discriminate| |]; intros [= H];
      by apply DecimalPos.Unsigned.to_uint_nonnil in H.
  - destruct b; simpl; [discriminate| |]; intros [= H];
      by apply DecimalPos.Unsigned.to_uint_nonnil in H.
  - destruct a; simpl; [discriminate| |]; intros [= H];
      by apply DecimalPos.Unsigned.to_uint_nonnil in H.
  - destruct a; simpl; [discriminate| |]; intros [= H];
      by apply DecimalPos.Unsigned.to_uint_nonnil in H.
Qed.

(** X18: two tally results built by [NewTallyResult] from integers are
    equal under [Equals] iff the three integers are pairwise the same:
    the decimal text of a count determines the count. *)
Theorem NewTallyResult_Equals_iff (yes abstain no yes' abstain' no' : Z) :
  Equals (NewTallyResult (NewInt yes) (NewInt abstain) (NewInt no))
         (NewTallyResult (NewInt yes') (NewInt abstain') (NewInt no')) = true
  ↔ yes = yes' ∧ abstain = abstain' ∧ no = no'.
Proof.
  unfold Equals, NewTallyResult. cbn [YesCount AbstainCount NoCount].
  rewrite !andb_true_iff, !String.eqb_eq. split.
  - intros [[Hy Ha] Hn]. repeat split; by apply Int_String_inj.
  - intros (-> & -> & ->). done.
Qed.

Lemma Dec_TruncateInt_in_range (d : Z) :
  BitLen d ≤ maxDecBitLen →
  Dec_TruncateInt (mkDec (Some d)) = Ok (NewInt (Z.quot d (10 ^ 18))).
Proof.
  intros Hd. unfold Dec_TruncateInt, NewIntFromBigInt. simpl.
  apply BitLen_truncate in Hd.
  destruct (Z.gtb_spec (BitLen (chopPrecisionAndTruncate d)) MaxBitLen) as [?|_]; [lia|].
  done.
Qed.

(** X19: for a map that holds a decimal in range for each of the options
    yes, abstain and no, [NewTallyResultFromMap] returns the tally result
    of the three decimals truncated toward zero; what the map holds for
    any other option does not matter. *)
Theorem NewTallyResultFromMap_truncates (results : gmap VoteOption Dec) (yes abstain no : Z) :
  results !! OptionYes = Some (mkDec (Some yes)) →
  results !! OptionAbstain = Some (mkDec (Some abstain)) →
  results !! OptionNo = Some (mkDec (Some no)) →
  BitLen yes ≤ maxDecBitLen → BitLen abstain ≤ maxDecBitLen → BitLen no ≤ maxDecBitLen →
  NewTallyResultFromMap results =
    Ok (NewTallyResult (NewInt (Z.quot yes (10 ^ 18)))
                       (NewInt (Z.quot abstain (10 ^ 18)))
                       (NewInt (Z.quot no (10 ^ 18)))) ∧
  (∀ other d, other ≠ OptionYes → other ≠ OptionAbstain → other ≠ OptionNo →
     NewTallyResultFromMap (<[other := d]> results) = NewTallyResultFromMap results).
Proof.
  intros Hy Ha Hn Hby Hba Hbn. split.
  - unfold NewTallyResultFromMap, mapIndex. rewrite Hy, Ha, Hn. simpl.
    rewrite !Dec_TruncateInt_in_range by done. done.
  - intros other d H1 H2 H3. unfold NewTallyResultFromMap, mapIndex.
    by rewrite !lookup_insert_ne.
Qed.

Lemma NewTallyResultFromMap_truncates_witness :
  let results : gmap VoteOption Dec :=
    {[ OptionYes := mkDec (Some 2500000000000000000);
       OptionAbstain := NewDec 0;
       OptionNo := mkDec (Some (-1999999999999999999)) ]} in
  NewTallyResultFromMap results =
    Ok (NewTallyResult (NewInt (Z.quot 2500000000000000000 (10 ^ 18)))
                       (NewInt (Z.quot (0 * precisionReuse) (10 ^ 18)))
                       (NewInt (Z.quot (-1999999999999999999) (10 ^ 18)))) ∧
  (∀ other d, other ≠ OptionYes → other ≠ OptionAbstain → other ≠ OptionNo →
     NewTallyResultFromMap (<[other := d]> results) = NewTallyResultFromMap results).
Proof.
  apply (NewTallyResultFromMap_truncates
           {[ OptionYes := mkDec (Some 2500000000000000000);
              OptionAbstain := NewDec 0;
              OptionNo := mkDec (Some (-1999999999999999999)) ]}
           2500000000000000000 (0 * precisionReuse) (-1999999999999999999));
    vm_compute; (reflexivity || discriminate).
Defined.

(** X20: an option yes, abstain or no that the map does not hold makes
    [NewTallyResultFromMap] panic: the zero value decimal read from the
    map holds a nil pointer. With the option yes missing the panic is the
    nil dereference. *)
Theorem NewTallyResultFromMap_missing_option (results : gmap VoteOption Dec) :
  results !! OptionYes = None ∨ results !! OptionAbstain = None ∨
  results !! OptionNo = None →
  (∃ p, NewTallyResultFromMap results = Panic p) ∧
  (results !! OptionYes = None → NewTallyResultFromMap results = Panic NilDereference).
Proof.
  intros Hmiss.
  assert (results !! OptionYes = None →
          NewTallyResultFromMap results = Panic NilDereference) as Hyes.
  { intros Hy. unfold NewTallyResultFromMap, mapIndex. by rewrite Hy. }
  split; [|done].
  unfold NewTallyResultFromMap, mapIndex in *.
  destruct (results !! OptionYes) as [y|]; [|by eexists; apply Hyes].
  simpl. destruct (Dec_TruncateInt y) as [iy|p]; [|by exists p]. simpl.
  destruct (results !! OptionAbstain) as [a|]; [|by exists NilDereference].
  simpl. destruct (Dec_TruncateInt a) as [ia|p]; [|by exists p]. simpl.
  destruct (results !! OptionNo) as [n|]; [|by exists NilDereference].
  destruct Hmiss as [?|[?|?]]; done.
Qed.

Lemma NewTallyResultFromMap_missing_option_witness :
  (∃ p, NewTallyResultFromMap
          ({[ OptionYes := NewDec 3; OptionNo := NewDec 1 ]} : gmap VoteOption Dec)
        = Panic p) ∧
  NewTallyResultFromMap ∅ = Panic NilDereference.
Proof.
  split.
  - refine (proj1 (NewTallyResultFromMap_missing_option
                     ({[ OptionYes := NewDec 3; OptionNo := NewDec 1 ]}
                        : gmap VoteOption Dec) _)).
    right. left. vm_compute. reflexivity.
  - refine (proj2 (NewTallyResultFromMap_missing_option ∅ _) _).
    + left. reflexivity.
    + reflexivity.
Defined.

Lemma valSharesMapOf_snoc (valShares : list GovernorValShares) (x : GovernorValShares) :
  valSharesMapOf (valShares ++ [x]) =
  <[ValidatorAddress x := Shares x]> (valSharesMapOf valShares).
Proof. unfold valSharesMapOf. by rewrite foldl_app. Qed.

(** X21: in the info built by [NewGovernorGovInfo] a validator has the
    shares of the last element of the slice that names it (a later
    element replaces an earlier one), and no shares when no element names
    it; the deductions start empty; address, vote and voting power are
    the ones given. *)
Theorem NewGovernorGovInfo_last_shares_win (address : GovernorAddress)
    (valShares : list GovernorValShares) (options : WeightedVoteOptions)
    (votingPower : Dec) :
  let info := NewGovernorGovInfo address valShares options votingPower in
  (∀ validator,
     ValShares info !! validator =
     Shares <$> last (filter (λ x, ValidatorAddress x = validator) valShares)) ∧
  ValSharesDeductions info = ∅ ∧
  Address info = address ∧ Vote info = options ∧ VotingPower info = votingPower.
Proof.
  intros info. split; [|done]. intros validator. unfold info. simpl.
  induction valShares as [|x valShares IH] using rev_ind; [done|].
  rewrite valSharesMapOf_snoc, filter_app.
  destruct (decide (ValidatorAddress x = validator)) as [Heq|Hne].
  - rewrite filter_cons_True by done. rewrite filter_nil, last_snoc.
    rewrite Heq. by rewrite lookup_insert_eq.
  - rewrite filter_cons_False by done. rewrite filter_nil, app_nil_r.
    by rewrite lookup_insert_ne.
Qed.

(** ** Printing and parsing integers *)

Lemma scanDigits_step (b : Z) (ch : ascii) (rest : string) (prev : prevChar)
    (invalSep : bool) (count value : Z) :
  Ascii.eqb ch "_" = false → (digitVal b ch >=? b) = false →
  scanDigits b (String ch rest) prev invalSep count value =
  scanDigits b rest PrevDigit invalSep (count + 1) (value * b + digitVal b ch).
Proof. intros H1 H2. simpl. by rewrite H1, H2. Qed.

Lemma scanDigits_uint (d : Decimal.uint) (prev : prevChar) (invalSep : bool)
    (count value : Z) :
  scanDigits 10 (NilEmpty.string_of_uint d) prev invalSep count value =
  mkScan (uintValue d value) (count + Z.of_nat (Decimal.nb_digits d)) invalSep
         (match d with Decimal.Nil => prev | _ => PrevDigit end) EmptyString.
Proof.
  revert prev count value.
  induction d as [|d IH|d IH|d IH|d IH|d IH|d IH|d IH|d IH|d IH|d IH];
    intros prev count value;
    [simpl; by rewrite Z.add_0_r|..];
    cbn [NilEmpty.string_of_uint];
    rewrite scanDigits_step by reflexivity;
    rewrite IH; cbn [uintValue Decimal.nb_digits];
    (f_equal; first [reflexivity|lia|by destruct d]).
Qed.

Lemma uintValue_acc (d : Decimal.uint) (acc : positive) :
  uintValue d (Z.pos acc) = Z.pos (Pos.of_uint_acc d acc).
Proof.
  revert acc.
  induction d as [|d IH|d IH|d IH|d IH|d IH|d IH|d IH|d IH|d IH|d IH];
    intros acc; cbn [uintValue Pos.of_uint_acc]; [done|..];
    rewrite <- IH; f_equal; lia.
Qed.

Lemma uintValue_of_uint (d : Decimal.uint) :
  uintValue d 0 = Z.of_N (Pos.of_uint d).
Proof.
  induction d as [|d IH|d IH|d IH|d IH|d IH|d IH|d IH|d IH|d IH|d IH];
    cbn [uintValue Pos.of_uint]; [done|exact IH|..];
    apply (uintValue_acc d).
Qed.

Lemma nzhead_not_D0 (d d' : Decimal.uint) : Decimal.nzhead d ≠ Decimal.D0 d'.
Proof. induction d; simpl; (done || discriminate). Qed.

Lemma to_uint_leading_digit (p : positive) :
  match Pos.to_uint p with
  | Decimal.Nil | Decimal.D0 _ => False
  | _ => True
  end.
Proof.
  pose proof (DecimalPos.Unsigned.to_of (Pos.to_uint p)) as Hnorm.
  rewrite DecimalPos.Unsigned.of_to in Hnorm. simpl in Hnorm.
  pose proof (DecimalPos.Unsigned.to_uint_nonzero p) as Hnz.
  pose proof (DecimalPos.Unsigned.to_uint_nonnil p) as Hnn.
  destruct (Pos.to_uint p) as [|d| | | | | | | | |] eqn:Hp; try done.
  unfold Decimal.unorm in Hnorm. simpl in Hnorm.
  destruct (Decimal.nzhead d) eqn:Hh; try (by inversion Hnorm).
  injection Hnorm as Hd. by eapply nzhead_not_D0.
Qed.

Lemma natScan_digits (d : Decimal.uint) :
  match d with Decimal.Nil | Decimal.D0 _ => False | _ => True end →
  natScan (NilEmpty.string_of_uint d) = Some (uintValue d 0, EmptyString).
Proof.
  intros Hlead.
  assert (∀ st : scanState,
            st = mkScan (uintValue d 0) (0 + Z.of_nat (Decimal.nb_digits d)) false
                        PrevDigit EmptyString →
            (if sc_count st =? 0 then None
             else if sc_invalSep st || is_PrevSep (sc_prev st) then None
                  else Some (sc_value st, sc_rest st))
            = Some (uintValue d 0, EmptyString)) as Hfinish.
  { intros st ->. cbn [sc_count sc_invalSep sc_prev sc_value sc_rest].
    destruct (Z.eqb_spec (0 + Z.of_nat (Decimal.nb_digits d)) 0) as [Hz|_]; [|done].
    destruct d; simpl in Hz; (done || lia). }
  destruct d as [|d|d|d|d|d|d|d|d|d|d]; try done;
    unfold natScan; cbn [NilEmpty.string_of_uint]; cbv beta iota zeta;
    apply Hfinish;
    match goal with
    | |- scanDigits 10 (String ?c ?r) _ _ _ _ = mkScan (uintValue ?dd _) _ _ _ _ =>
        change (String c r) with (NilEmpty.string_of_uint dd)
    end;
    by rewrite scanDigits_uint.
Qed.

Lemma big_SetString_pos (p : positive) :
  big_SetString (NilEmpty.string_of_uint (Pos.to_uint p)) = Some (Z.pos p) ∧
  big_SetString (String "-" (NilEmpty.string_of_uint (Pos.to_uint p))) = Some (Z.neg p).
Proof.
  pose proof (to_uint_leading_digit p) as Hlead.
  assert (uintValue (Pos.to_uint p) 0 = Z.pos p) as Hval.
  { by rewrite uintValue_of_uint, DecimalPos.Unsigned.of_to. }
  pose proof (natScan_digits _ Hlead) as Hscan. rewrite Hval in Hscan.
  split.
  - destruct (Pos.to_uint p) as [|d|d|d|d|d|d|d|d|d|d]; try done;
      unfold big_SetString; cbn [NilEmpty.string_of_uint] in *;
      cbv beta iota zeta; cbn [Ascii.eqb Bool.eqb orb];
      by rewrite Hscan.
  - unfold big_SetString. cbn [Ascii.eqb Bool.eqb orb]. cbv beta iota zeta.
    by rewrite Hscan.
Qed.

(** X22: the decimal text that [String] prints for an integer of at most
    256 bits parses back to this integer: [NewIntFromString] succeeds on
    it and returns the integer. *)
Theorem NewIntFromString_of_Int_String (z : Z) :
  BitLen z ≤ MaxBitLen →
  NewIntFromString (Int_String (NewInt z)) = (NewInt z, true).
Proof.
  intros Hfit.
  assert (big_SetString (Int_String (NewInt z)) = Some z) as Hparse.
  { unfold Int_String. simpl. destruct z as [|p|p]; [done|..];
      destruct (big_SetString_pos p) as [Hpos Hneg];
      pose proof (DecimalPos.Unsigned.to_uint_nonnil p) as Hnn;
      cbn [Z.to_int NilZero.string_of_int NilZero.string_of_uint
           NilEmpty.string_of_int];
      unfold NilZero.string_of_int, NilZero.string_of_uint;
      destruct (Pos.to_uint p); done. }
  unfold NewIntFromString. rewrite Hparse.
  destruct (Z.gtb_spec (BitLen z) MaxBitLen) as [?|_]; [lia|done].
Qed.

Lemma NewIntFromString_of_Int_String_witness :
  NewIntFromString (Int_String (NewInt (-1200))) = (NewInt (-1200), true).
Proof.
  apply (NewIntFromString_of_Int_String (-1200)). vm_compute. discriminate.
Defined.

(** ** The governors in store order *)

Lemma foldl_append_filter {A} (P : A → bool) (l0 l : list A) :
  foldl (λ acc x, if P x then acc ++ [x] else acc) l0 l =
  l0 ++ filter (λ x, P x = true) l.
Proof.
  revert l0. induction l as [|x l IH]; intros l0; simpl.
  { by rewrite app_nil_r. }
  rewrite IH. destruct (P x) eqn:HP.
  - rewrite filter_cons_True by done. by rewrite <- app_assoc.
  - rewrite filter_cons_False by (by rewrite HP). done.
Qed.

Lemma GetAllGovernors_iterator (k : Keeper) : GetAllGovernors k = governorIterator k.
Proof.
  unfold GetAllGovernors.
  rewrite (foldl_append_filter (λ _, true) [] (governorIterator k)). simpl.
  induction (governorIterator k) as [|g l IH]; [done|].
  rewrite filter_cons_True by done. by rewrite IH.
Qed.

(** X23: [GetAllGovernors] returns exactly the stored governors, one per
    address of the store, and [GetAllActiveGovernors] returns those of
    them that are active, in the same order. *)
Theorem GetAllGovernors_lists_the_store (k : Keeper) :
  (∀ governor, governor ∈ GetAllGovernors k ↔
               ∃ addr, governors k !! addr = Some governor) ∧
  length (GetAllGovernors k) = size (governors k) ∧
  GetAllActiveGovernors k = filter (λ g, IsActive g = true) (GetAllGovernors k) ∧
  (∀ governor, governor ∈ GetAllActiveGovernors k → GetStatus governor = Active).
Proof.
  assert (GetAllActiveGovernors k = filter (λ g, IsActive g = true) (GetAllGovernors k))
    as Hactive.
  { rewrite GetAllGovernors_iterator. unfold GetAllActiveGovernors.
    by rewrite (foldl_append_filter IsActive). }
  split; [|split; [|split; [done|]]].
  - intros governor. rewrite GetAllGovernors_iterator. unfold governorIterator.
    rewrite list_elem_of_fmap. split.
    + intros ([addr g] & -> & Hin). exists addr.
      rewrite merge_sort_Permutation in Hin. by apply elem_of_map_to_list.
    + intros [addr Hg]. exists (addr, governor). split; [done|].
      rewrite merge_sort_Permutation. by apply elem_of_map_to_list.
  - rewrite GetAllGovernors_iterator. unfold governorIterator.
    by rewrite length_fmap, merge_sort_Permutation, length_map_to_list.
  - intros governor. rewrite Hactive. intros [Hact _]%list_elem_of_filter.
    unfold IsActive in Hact. by apply bool_decide_eq_true in Hact.
Qed.



Lemma iterateGovernorsLoop_nostop {S} (cb : S → Z → Governor → S * bool)
    (iterator : list Governor) (i : Z) (s : S) :
  (∀ s i g, (cb s i g).2 = false) →
  0 ≤ i → i + Z.of_nat (length iterator) < 2 ^ 63 →
  calls (iterateGovernorsLoop cb iterator i s) =
  zip (seqZ i (Z.of_nat (length iterator))) iterator.
Proof.
  intros Hcb. revert i s.
  induction iterator as [|g next IH]; intros i s Hi Hlen; [done|].
  cbn [length] in Hlen. cbn [iterateGovernorsLoop].
  specialize (Hcb s i g) as Hstop.
  destruct (cb s i g) as [s' stop]. simpl in Hstop. subst stop.
  rewrite (int64_small (i + 1)) by lia.
  unfold after_call. cbn [calls]. rewrite IH by lia.
  cbn [length]. rewrite (seqZ_cons i) by lia. simpl.
  do 2 f_equal. f_equal; lia.
Qed.

(** X25: a callback that never asks to stop is handed every stored
    governor once, in store order, with the indexes 0, 1, 2, ... (for a
    store of fewer than 2^63 governors). *)
Theorem IterateGovernors_visits_all {S} (k : Keeper)
    (cb : S → Z → Governor → S * bool) (s : S) :
  (∀ s i g, (cb s i g).2 = false) →
  Z.of_nat (size (governors k)) < 2 ^ 63 →
  calls (IterateGovernors k cb s) =
  zip (seqZ 0 (Z.of_nat (size (governors k)))) (GetAllGovernors k).
Proof.
  intros Hcb Hsize. unfold IterateGovernors.
  assert (length (governorIterator k) = size (governors k)) as Hlen.
  { unfold governorIterator.
    by rewrite length_fmap, merge_sort_Permutation, length_map_to_list. }
  rewrite GetAllGovernors_iterator, <- Hlen.
  change (int64 0) with 0.
  apply iterateGovernorsLoop_nostop; [done|lia|lia].
Qed.

Lemma IterateGovernors_visits_all_witness :
  calls (IterateGovernors (scenario.threeGovernors 2 "100") scenario.countCalls 0%nat) =
  zip (seqZ 0 (Z.of_nat (size (governors (scenario.threeGovernors 2 "100")))))
      (GetAllGovernors (scenario.threeGovernors 2 "100")).
Proof.
  apply (IterateGovernors_visits_all (scenario.threeGovernors 2 "100")
           scenario.countCalls 0%nat).
  - intros s i g. reflexivity.
  - vm_compute. reflexivity.
Defined.

(** ** The governor query *)

(** X26: the governor query replies with a governor exactly when the
    request is there, its address text is not empty and decodes, and the
    store holds a record under the decoded address, which is then the
    reply; it fails with the code NotFound exactly when all of this holds
    except that the store holds no record; every other failure has the
    code InvalidArgument. *)
Theorem Governor_query_outcomes (decode : string → GovernorAddress + string)
    (k : Keeper) (req : option grpc_query.QueryGovernorRequest) :
  (∀ governor,
     grpc_query.Governor decode k req = grpc_query.Reply governor ↔
     ∃ r addr, req = Some r ∧ grpc_query.RequestGovernorAddress r ≠ ""%string ∧
               decode (grpc_query.RequestGovernorAddress r) = inl addr ∧
               governors k !! addr = Some governor) ∧
  (∀ st,
     grpc_query.Governor decode k req = grpc_query.Error st →
     (grpc_query.code st = grpc_query.NotFound ↔
      ∃ r addr, req = Some r ∧ grpc_query.RequestGovernorAddress r ≠ ""%string ∧
                decode (grpc_query.RequestGovernorAddress r) = inl addr ∧
                governors k !! addr = None) ∧
     (grpc_query.code st = grpc_query.NotFound ∨
      grpc_query.code st = grpc_query.InvalidArgument)).
Proof.
  unfold grpc_query.Governor, GetGovernor.
  destruct req as [r|].
  2:{ split.
      - intros governor. split; [done|]. by intros (? & ? & [=] & _).
      - intros st [= <-]. simpl. split; [|by right].
        split; [done|]. by intros (? & ? & [=] & _). }
  destruct (String.eqb_spec (grpc_query.RequestGovernorAddress r) "") as [Hempty|Hne].
  { split.
    - intros governor. split; [done|]. intros (? & ? & [= <-] & Hn & _). done.
    - intros st [= <-]. simpl. split; [|by right].
      split; [done|]. intros (? & ? & [= <-] & Hn & _). done. }
  destruct (decode (grpc_query.RequestGovernorAddress r)) as [addr|err] eqn:Hdec.
  2:{ split.
      - intros governor. split; [done|]. intros (? & ? & [= <-] & _ & Hd & _).
        congruence.
      - intros st [= <-]. simpl. split; [|by right].
        split; [done|]. intros (? & ? & [= <-] & _ & Hd & _). congruence. }
  destruct (governors k !! addr) as [g|] eqn:Hg; simpl.
  - split.
    + intros governor. split.
      * intros [= <-]. exists r, addr. done.
      * intros (? & ? & [= <-] & _ & Hd & Hg'). congruence.
    + intros st [=].
  - split.
    + intros governor. split; [done|].
      intros (? & ? & [= <-] & _ & Hd & Hg'). congruence.
    + intros st [= <-]. simpl. split; [|by left].
      split; [|done]. intros _. exists r, addr. done.
Qed.

(** X27: after [UpdateGovernorByPowerIndex] the governor query answers
    with the updated governor for every non-empty address text that
    decodes to the governor's address. *)
Theorem Governor_query_after_update (decode : string → GovernorAddress + string)
    (k : Keeper) (governor : Governor) (text : string) :
  text ≠ ""%string →
  decode text = inl (GetAddress governor) →
  grpc_query.Governor decode (UpdateGovernorByPowerIndex k governor)
    (Some (grpc_query.mkQueryGovernorRequest text)) = grpc_query.Reply governor.
Proof.
  intros Hne Hdec. unfold grpc_query.Governor. simpl.
  destruct (String.eqb_spec text "") as [?|_]; [done|].
  rewrite Hdec. unfold GetGovernor.
  rewrite UpdateGovernorByPowerIndex_governors, lookup_insert_eq. done.
Qed.

Lemma Governor_query_after_update_witness :
  grpc_query.Governor (λ text, inl text)
    (UpdateGovernorByPowerIndex scenario.noGovernors scenario.govA)
    (Some (grpc_query.mkQueryGovernorRequest "A")) = grpc_query.Reply scenario.govA.
Proof.
  apply (Governor_query_after_update (λ text, inl text) scenario.noGovernors
           scenario.govA "A").
  - discriminate.
  - reflexivity.
Defined.

(** ** When the cap does not bite *)

(** X28: when the power index holds at most [MaxGovernors + 1] entries,
    no eligibility check panics and the callback never asks to stop,
    every indexed governor that is active and passes the eligibility
    check is handed to the callback. *)
Theorem iterate_hands_over_every_eligible_governor {S} (k : Keeper)
    (cb : S → Z → Governor → S * bool) (s : S)
    (key : PowerKey) (addr : GovernorAddress) (governor : Governor) :
  (∀ s i g, (cb s i g).2 = false) →
  Forall (λ e, is_Ok (entryVerdict k e) = true) (reversePowerIterator k) →
  Z.of_nat (size (governorsByPower k)) ≤ Z.of_N (MaxGovernors (GetParams k)) + 1 →
  Z.of_nat (size (governorsByPower k)) < 2 ^ 63 →
  governorsByPower k !! key = Some addr →
  governors k !! addr = Some governor →
  IsActive governor = true →
  ValidateGovernorMinSelfDelegation k governor = Ok true →
  governor ∈ (calls (IterateMaxGovernorsByGovernancePower k cb s)).*2.
Proof.
  intros Hcb Hok Hcap Hsize Hkey Hgov Hact Hval.
  unfold IterateMaxGovernorsByGovernancePower.
  destruct (iterateLoop_calls_nostop k (Z.of_N (MaxGovernors (GetParams k))) cb
              (reversePowerIterator k) 0 s Hcb Hok) as [-> _];
    [lia|rewrite reversePowerIterator_length; lia|].
  rewrite snd_zip.
  - apply list_elem_of_fmap. exists (key, addr). split.
    + unfold resolve, GetGovernor. simpl. by rewrite Hgov.
    + apply list_elem_of_filter. split.
      * apply admitted_true. unfold resolve, GetGovernor. simpl. by rewrite Hgov.
      * by apply (reversePowerIterator_elem_of k (key, addr)).
  - rewrite length_fmap, length_seqZ.
    etrans; [apply length_filter|]. rewrite reversePowerIterator_length. lia.
Qed.

Lemma iterate_hands_over_every_eligible_governor_witness :
  scenario.govC ∈
    (calls (IterateMaxGovernorsByGovernancePower (scenario.threeGovernors 2 "100")
              scenario.countCalls 0%nat)).*2.
Proof.
  apply (iterate_hands_over_every_eligible_governor (scenario.threeGovernors 2 "100")
           scenario.countCalls 0%nat (100, "C"%string) "C"%string scenario.govC).
  - intros s i g. reflexivity.
  - assert (reversePowerIterator (scenario.threeGovernors 2 "100") =
            [scenario.entryA; scenario.entryB; scenario.entryC]) as ->
      by (vm_compute; reflexivity).
    repeat constructor.
  - vm_compute. discriminate.
  - vm_compute. reflexivity.
  - vm_compute. reflexivity.
  - vm_compute. reflexivity.
  - reflexivity.
  - vm_compute. reflexivity.
Defined.

(** ** The panics of the eligibility check *)

Lemma NewIntFromString_nil (s : string) :
  (NewIntFromString s).1 = mkInt None → (NewIntFromString s).2 = false.
Proof.
  unfold NewIntFromString. destruct (big_SetString s) as [z|]; [|done].
  destruct (BitLen z >? MaxBitLen); done.
Qed.

(** X29: the eligibility check panics in these ways only: the computation
    of the bonded tokens panics; or, for an active governor whose bonded
    tokens compute, the governance delegation is missing, its governor
    text does not decode, it names another governor, or it names the
    governor itself while the configured minimum does not parse. A
    governor that is not active never makes the check panic once its
    bonded tokens compute. *)
Theorem Validate_panics_only_so (k : Keeper) (governor : Governor) (p : panic) :
  ValidateGovernorMinSelfDelegation k governor = Panic p →
  getGovernorBondedTokens k (GetAddress governor) = Panic p ∨
  (is_Ok (getGovernorBondedTokens k (GetAddress governor)) = true ∧
   IsActive governor = true ∧
   ((governanceDelegations k !! GetAddress governor = None ∧ p = noSelfDelegation) ∨
    (∃ del, governanceDelegations k !! GetAddress governor = Some del ∧
       ((DelegationGovernorAddress del = None ∧ p = InvalidBech32) ∨
        (∃ a, DelegationGovernorAddress del = Some a ∧ a ≠ GetAddress governor ∧
              p = noSelfDelegation) ∨
        (DelegationGovernorAddress del = Some (GetAddress governor) ∧
         (NewIntFromString (MinGovernorSelfDelegation (GetParams k))).2 = false ∧
         p = NilDereference))))).
Proof.
  intros Hv.
  destruct (getGovernorBondedTokens k (GetAddress governor)) as [bt|q] eqn:Hbt.
  2:{ left. unfold ValidateGovernorMinSelfDelegation in Hv. rewrite Hbt in Hv.
      simpl in Hv. congruence. }
  right. split; [done|].
  destruct (getGovernorBondedTokens_not_nil _ _ _ Hbt) as [b ->].
  destruct (IsActive governor) eqn:Hact.
  2:{ rewrite (Validate_inactive _ _ Hact), Hbt in Hv. done. }
  split; [done|].
  rewrite (Validate_active _ _ Hact), Hbt in Hv. unfold mbind, result_bind in Hv.
  destruct (governanceDelegations k !! GetAddress governor) as [del|].
  2:{ left. split; [done|]. congruence. }
  right. exists del. split; [done|].
  destruct (DelegationGovernorAddress del) as [a|].
  2:{ left. split; [done|]. congruence. }
  right. destruct (String.eqb_spec (GetAddress governor) a) as [Heq|Hne].
  - right. rewrite <- Heq. split; [done|].
    destruct ((NewIntFromString (MinGovernorSelfDelegation (GetParams k))).1)
      as [[m|]] eqn:Hmin; [done|].
    split; [by apply NewIntFromString_nil|]. simpl in Hv. congruence.
  - left. exists a. split; [done|]. split; [done|]. congruence.
Qed.

Lemma Validate_panics_only_so_witness :
  getGovernorBondedTokens (scenario.threeGovernors 2 "abc") (GetAddress scenario.govA)
    = Panic NilDereference ∨
  (is_Ok (getGovernorBondedTokens (scenario.threeGovernors 2 "abc")
            (GetAddress scenario.govA)) = true ∧
   IsActive scenario.govA = true ∧
   ((governanceDelegations (scenario.threeGovernors 2 "abc") !! GetAddress scenario.govA
       = None ∧ NilDereference = noSelfDelegation) ∨
    (∃ del, governanceDelegations (scenario.threeGovernors 2 "abc")
              !! GetAddress scenario.govA = Some del ∧
       ((DelegationGovernorAddress del = None ∧ NilDereference = InvalidBech32) ∨
        (∃ a, DelegationGovernorAddress del = Some a ∧ a ≠ GetAddress scenario.govA ∧
              NilDereference = noSelfDelegation) ∨
        (DelegationGovernorAddress del = Some (GetAddress scenario.govA) ∧
         (NewIntFromString
            (MinGovernorSelfDelegation (GetParams (scenario.threeGovernors 2 "abc")))).2
           = false ∧
         NilDereference = NilDereference))))).
Proof.
  apply (Validate_panics_only_so (scenario.threeGovernors 2 "abc") scenario.govA
           NilDereference).
  vm_compute. reflexivity.
Defined.
